(** * xkcd-daily: a shallow embedding of the scraper, the README updater and
      the display script, with the properties of their specification.

    Layout: the Python values and library calls the three scripts rely on
    ([Py]), the world they act on ([World]), then one module per source
    file ([Scraper] for src/scraper.py, [UpdateReadme] for
    src/update_readme.py, [WhatXkcd] for src/what_xkcd.py), and finally the
    lemmas and theorems. *)

From Stdlib Require Import ZArith NArith List Ascii String Lia.
From stdpp Require Import base option list gmap sorting pretty.

Local Open Scope Z_scope.

(* ===================================================================== *)
(** * Python values *)
(* ===================================================================== *)

(** A Python [str] is a sequence of Unicode code points; a character is its
    code point. [bytes] are sequences of byte values. *)
Abbreviation char := N (only parsing).
Abbreviation str := (list N) (only parsing).
Abbreviation bytes := (list N) (only parsing).

Module Py.

(** String literals of the source, written as Rocq strings. *)
Definition lit (s : string) : str := N_of_ascii <$> list_ascii_of_string s.

Definition chr (a : ascii) : char := N_of_ascii a.

#[global] Arguments lit : simpl never.
#[global] Arguments chr : simpl never.

(** [x in xs] on a list of one-character strings. *)
Fixpoint contains (xs : list char) (c : char) : bool :=
  match xs with
  | [] => false
  | x :: xs' => if N.eqb c x then true else contains xs' c
  end.

(** [s.startswith(prefix)] *)
Fixpoint startswith (s prefix : str) : bool :=
  match prefix, s with
  | [], _ => true
  | _ :: _, [] => false
  | p :: prefix', c :: s' => if N.eqb c p then startswith s' prefix' else false
  end.

(** [s.split(sep)] for a one-character separator: the segments between
    the occurrences of [sep], in order; never the empty list. *)
Fixpoint split (sep : char) (s : str) : list str :=
  match s with
  | [] => [[]]
  | c :: s' =>
      if N.eqb c sep then [] :: split sep s'
      else match split sep s' with
           | seg :: segs => (c :: seg) :: segs
           | [] => [[c]]
           end
  end.

(** [xs[-1]]: [None] stands for the IndexError on an empty list. *)
Definition item_neg1 {A} (xs : list A) : option A := last xs.

(** [s.replace(old, new)] for a one-character [old]. *)
Definition replace (old : char) (new : str) (s : str) : str :=
  flat_map (fun c => if N.eqb c old then new else [c]) s.

(** [s.count(c)] for a one-character [c]. *)
Definition count (c : char) (s : str) : nat :=
  length (filter (fun x => x = c) s).

(** [a < b] on strings: lexicographic on code points. *)
Fixpoint str_ltb (a b : str) : bool :=
  match a, b with
  | _, [] => false
  | [], _ :: _ => true
  | x :: a', y :: b' =>
      if N.ltb x y then true
      else if N.eqb x y then str_ltb a' b' else false
  end.

(** [not (b < a)], the order a sort by [<] produces. *)
Definition str_le (a b : str) : Prop := str_ltb b a = false.

#[export] Instance str_le_dec a b : Decision (str_le a b).
Proof. unfold str_le. apply _. Defined.

(** [sorted(xs, reverse=r)] on strings: a merge sort that compares with
    [<]; with [reverse=True] the list is reversed, sorted and reversed
    again, as CPython's [list.sort] does. Strings that compare equal are
    equal, so the result is the one sorted permutation of [xs]. *)
Definition sorted (xs : list str) (descending : bool) : list str :=
  if descending then reverse (merge_sort str_le (reverse xs))
  else merge_sort str_le xs.

(** [str(n)] for an int. *)
Definition str_of_int (n : Z) : str := lit (pretty n).

(** [os.path.join(a, b)] (posixpath). *)
Definition path_join (a b : str) : str :=
  if startswith b (lit "/") then b
  else match last a with
       | None => b
       | Some c => if N.eqb c (chr "/") then a ++ b else a ++ lit "/" ++ b
       end.

(** [s.rfind(c)] for a one-character [c]: index of the last occurrence,
    [None] for Python's -1. *)
Fixpoint rfind (c : char) (s : str) : option nat :=
  match s with
  | [] => None
  | x :: s' =>
      match rfind c s' with
      | Some i => Some (S i)
      | None => if N.eqb x c then Some O else None
      end
  end.

(** [pathlib.PurePosixPath(p).name]: the last of the components of [p],
    which are the segments between slashes other than the empty one and
    the single dot; the empty string when there is none. *)
Definition path_name (p : str) : str :=
  let parts := List.filter (fun x => negb (bool_decide (x = []))
                              && negb (bool_decide (x = [chr "."])))
                           (split (chr "/") p) in
  default [] (last parts).

(** [pathlib.PurePosixPath(p).stem], as in pathlib up to Python 3.13:
    the name up to its last dot, when that dot is neither the first nor
    the last character of the name; the whole name otherwise. *)
Definition path_stem (p : str) : str :=
  let name := path_name p in
  match rfind (chr ".") name with
  | Some i =>
      if bool_decide (0 < i < length name - 1)%nat then take i name
      else name
  | None => name
  end.

End Py.

(* ===================================================================== *)
(** * Exceptions and the world the scripts act on *)
(* ===================================================================== *)

Module World.

(** The exception classes that occur, with their base classes:
    requests.RequestException derives from IOError, which is OSError. *)
Inductive exn_class :=
| Exception | OSError | RequestException | HTTPError | ConnectionError
| AttributeError | KeyError | TypeError | NameError | ValueError
| IndexError | ZeroDivisionError.

#[export] Instance exn_class_eq_dec : EqDecision exn_class.
Proof. solve_decision. Defined.

Definition base_class (c : exn_class) : option exn_class :=
  match c with
  | Exception => None
  | RequestException => Some OSError
  | HTTPError | ConnectionError => Some RequestException
  | _ => Some Exception
  end.

Fixpoint issubclass_fuel (n : nat) (c d : exn_class) : bool :=
  if bool_decide (c = d) then true
  else match n, base_class c with
       | S n', Some b => issubclass_fuel n' b d
       | _, _ => false
       end.

(** The hierarchy above has depth 4. *)
Definition issubclass : exn_class -> exn_class -> bool := issubclass_fuel 4.

(** An exception: its class and [str(e)]. *)
Record exn := Exn { exn_cls : exn_class; exn_msg : str }.

Inductive result (A : Type) :=
| Ret (a : A)
| Raise (e : exn).
Arguments Ret {A} a.
Arguments Raise {A} e.

(** File contents: written in binary mode, or as text (UTF-8). *)
Inductive content :=
| Binary (b : bytes)
| Text (s : str).

Inductive mode := W | WB.

Definition empty_file (m : mode) : content :=
  match m with W => Text [] | WB => Binary [] end.

(** What the display script asks of Pillow and of the e-paper driver. *)
Inductive device_op :=
| ImageOpen (path : str)              (* Image.open(path) *)
| NewDisplay (colour : str)           (* InkyWHAT(colour) *)
| SetBorder                           (* inky_display.set_border(WHITE) *)
| Resize (w h : Z)                    (* img.resize((w, h), LANCZOS) *)
| Crop (x0 y0 x1 y1 : Z)              (* img.crop((x0, y0, x1, y1)) *)
| NewPalette                          (* Image.new("P", (1, 1)) *)
| PutPalette (data : list Z)          (* pal_img.putpalette(data) *)
| ConvertRGB                          (* img.convert("RGB") *)
| Quantize                            (* img.quantize(palette=pal_img) *)
| Rotate (degrees : Z)                (* img.rotate(degrees) *)
| SetImage                            (* inky_display.set_image(img) *)
| Show.                               (* inky_display.show() *)

(** What a run does to the outside, in order. *)
Inductive event :=
| Get (url : str)                     (* requests.get(url) *)
| Open (path : str) (m : mode)        (* open(path, mode) for writing *)
| Write (path : str) (c : content)    (* handle.write(c) *)
| Print (line : str)                  (* print(line) *)
| Device (op : device_op).

Record world := MkWorld {
  files : gmap str content;
  trace : list event
}.

Definition emit (e : event) (w : world) : world :=
  {| files := files w; trace := trace w ++ [e] |}.

Definition put_file (path : str) (c : content) (w : world) : world :=
  {| files := <[path := c]> (files w); trace := trace w |}.

(** Projections of the trace. *)
Definition requested (w : world) : list str :=
  omap (fun e => match e with Get u => Some u | _ => None end) (trace w).

Definition opened (w : world) : list str :=
  omap (fun e => match e with Open p _ => Some p | _ => None end) (trace w).

Definition printed (w : world) : list str :=
  omap (fun e => match e with Print l => Some l | _ => None end) (trace w).

(** Everything but the printed lines. *)
Definition is_action (e : event) : bool :=
  match e with Print _ => false | _ => true end.

Definition actions (w : world) : list event :=
  List.filter is_action (trace w).

Definition device_ops (w : world) : list device_op :=
  omap (fun e => match e with Device op => Some op | _ => None end) (trace w).

(** Computations: state passing over the world, with exceptions. The
    world is kept when an exception is raised. *)
Definition M (A : Type) : Type := world -> result A * world.

Definition ret {A} (a : A) : M A := fun w => (Ret a, w).

Definition raise {A} (e : exn) : M A := fun w => (Raise e, w).

Definition bind {A B} (m : M A) (k : A -> M B) : M B :=
  fun w => match m w with
           | (Ret a, w') => k a w'
           | (Raise e, w') => (Raise e, w')
           end.

(** [try: body except (classes) as e: handler e] *)
Definition try_except {A} (body : M A) (classes : list exn_class)
           (handler : exn -> M A) : M A :=
  fun w => match body w with
           | (Ret a, w') => (Ret a, w')
           | (Raise e, w') =>
               if existsb (issubclass (exn_cls e)) classes
               then handler e w'
               else (Raise e, w')
           end.

Definition print (line : str) : M unit :=
  fun w => (Ret tt, emit (Print line) w).

End World.

Export World.

Notation "x <- m ;; k" := (bind m (fun x => k))
  (at level 100, m at next level, right associativity).
Notation "m ;;; k" := (bind m (fun _ => k))
  (at level 100, right associativity).

(* ===================================================================== *)
(** * The libraries the scripts call *)
(* ===================================================================== *)

(** What [requests.get] returns. *)
Record response := Response {
  status_code : Z;
  reason : str;
  resp_url : str;
  text : str;          (* response.text *)
  content_of : bytes   (* response.content *)
}.

#[local] Set Warnings "-register-all".

(** A parsed document, as BeautifulSoup gives it: tags with their
    attributes and children, and strings. *)
Inductive node :=
| Tag (name : str) (attrs : list (str * str)) (children : list node)
| NavigableString (s : str).

Module Soup.

(** First tag satisfying [p] among [n] and its descendants, in document
    order. *)
Fixpoint find_from (p : str -> list (str * str) -> bool) (n : node)
  : option node :=
  match n with
  | NavigableString _ => None
  | Tag name attrs children =>
      if p name attrs then Some n
      else (fix first (l : list node) : option node :=
              match l with
              | [] => None
              | c :: l' =>
                  match find_from p c with
                  | Some r => Some r
                  | None => first l'
                  end
              end) children
  end.

(** [tag.find(...)]: the first matching descendant of [n], or [None]. *)
Definition find (p : str -> list (str * str) -> bool) (n : node)
  : option node :=
  match n with
  | NavigableString _ => None
  | Tag _ _ children =>
      (fix first (l : list node) : option node :=
         match l with
         | [] => None
         | c :: l' =>
             match find_from p c with
             | Some r => Some r
             | None => first l'
             end
         end) children
  end.

(** [attrs[key]] of a tag: the first binding of the key. *)
Fixpoint attr (key : str) (attrs : list (str * str)) : option str :=
  match attrs with
  | [] => None
  | (k, v) :: rest => if bool_decide (k = key) then Some v else attr key rest
  end.

(** The filter of [find(id=value)]. *)
Definition by_id (value : str) (_ : str) (attrs : list (str * str)) : bool :=
  bool_decide (attr (Py.lit "id") attrs = Some value).

(** The filter of [find(name)]. *)
Definition by_name (tag : str) (name : str) (_ : list (str * str)) : bool :=
  bool_decide (name = tag).

(** [tag.get_text()]: the strings below the tag, concatenated. *)
Fixpoint get_text (n : node) : str :=
  match n with
  | NavigableString s => s
  | Tag _ _ children =>
      (fix all (l : list node) : str :=
         match l with
         | [] => []
         | c :: l' => get_text c ++ all l'
         end) children
  end.

End Soup.

(** The environment of a run: what the network, the HTML parser, the file
    system and the interpreter answer. The answers may depend on what the
    run has done so far. *)
Record env := Env {
  (* requests.get(url): a response, or an exception *)
  net : world -> str -> result response;
  (* BeautifulSoup(text, "html.parser") *)
  html_parser : str -> node;
  (* the exception open(path, mode) raises, if any *)
  open_fault : world -> str -> mode -> option exn;
  (* the exception handle.write(data) raises, if any, with what the file
     holds once the handle is closed *)
  write_fault : world -> str -> content -> option (exn * content);
  (* os.path.dirname(os.path.dirname(os.path.abspath(__file__))) *)
  project_root : str;
  (* os.path.exists, os.listdir, os.path.isdir, glob.glob, os.path.relpath *)
  path_exists : str -> bool;
  listdir : str -> result (list str);
  isdir : str -> bool;
  glob : str -> list str;
  relpath : str -> str -> str;
  (* os.path.dirname(os.path.realpath("what_xkcd.py")) *)
  script_root : str;
  (* the exception the import of a module raises, if any *)
  import_fault : str -> option exn;
  (* the names the builtins module binds *)
  builtins : list str;
  (* random.randint(a, b) *)
  randint : Z -> Z -> Z;
  (* Image.open(path).size *)
  image_size : str -> Z * Z;
  (* int((float(a) / b) * c), for b other than 0 *)
  scale : Z -> Z -> Z -> Z;
  (* the exception a call to Pillow or to the display driver raises, if
     any *)
  device_fault : world -> device_op -> option exn
}.

Module IO.
Section with_env.
Context (E : env).

(** [requests.get(url)] *)
Definition requests_get (url : str) : M response :=
  fun w => (net E w url, emit (Get url) w).

(** The message [response.raise_for_status()] of requests builds: one
    for the statuses 400 to 499, one for 500 to 599, none otherwise. *)
Definition http_error_msg (r : response) : option str :=
  if bool_decide (400 <= status_code r < 500) then
    Some (Py.str_of_int (status_code r) ++ Py.lit " Client Error: "
          ++ reason r ++ Py.lit " for url: " ++ resp_url r)
  else if bool_decide (500 <= status_code r < 600) then
    Some (Py.str_of_int (status_code r) ++ Py.lit " Server Error: "
          ++ reason r ++ Py.lit " for url: " ++ resp_url r)
  else None.

(** [response.raise_for_status()]: an HTTPError when there is such a
    message, nothing otherwise. *)
Definition raise_for_status (r : response) : M unit :=
  match http_error_msg r with
  | Some msg => raise (Exn HTTPError msg)
  | None => ret tt
  end.

(** [open(path, mode)] for writing: creates or truncates the file. *)
Definition open_w (path : str) (m : mode) : M unit :=
  fun w =>
    match open_fault E w path m with
    | Some e => (Raise e, emit (Open path m) w)
    | None => (Ret tt, put_file path (empty_file m) (emit (Open path m) w))
    end.

(** [handle.write(data)], with the closing of the handle; a failed write
    may have put part of the data in the file. *)
Definition handle_write (path : str) (c : content) : M unit :=
  fun w =>
    match write_fault E w path c with
    | Some (e, rest) => (Raise e, put_file path rest (emit (Write path c) w))
    | None => (Ret tt, put_file path c (emit (Write path c) w))
    end.

(** [os.listdir(path)] *)
Definition os_listdir (path : str) : M (list str) :=
  fun w => (listdir E path, w).

(** [with open(path, mode) as f: f.write(data)] *)
Definition with_open_write (path : str) (m : mode) (c : content) : M unit :=
  open_w path m ;;; handle_write path c.

(** A call to Pillow or to the display driver: the call is recorded, and
    raises what the library raises. *)
Definition device_call (op : device_op) : M unit :=
  fun w =>
    match device_fault E w op with
    | Some e => (Raise e, emit (Device op) w)
    | None => (Ret tt, emit (Device op) w)
    end.

End with_env.
End IO.

(* ===================================================================== *)
(** * src/scraper.py *)
(* ===================================================================== *)

Module Scraper.

Definition XKCD_BASE_URL : str := Py.lit "https://xkcd.com/".

(** The denylist, in the order of the source: slash, backslash, question
    mark, percent, asterisk, colon, bar, double quote (code point 34),
    less-than, greater-than, dot. *)
Definition INVALID_FILENAME_CHARS : list char :=
  [Py.chr "/"; Py.chr "\"; Py.chr "?"; Py.chr "%"; Py.chr "*"; Py.chr ":";
   Py.chr "|"; 34%N; Py.chr "<"; Py.chr ">"; Py.chr "."].

Definition sanitize_filename (filename : str) : str :=
  List.filter (fun char => negb (Py.contains INVALID_FILENAME_CHARS char))
              filename.

(** [url.split('.')[-1]]; the index is always in range, see
    [split_last_some]. *)
Definition get_file_extension (url : str) : str :=
  default [] (Py.item_neg1 (Py.split (Py.chr ".") url)).

(** The dict with the keys 'image_url', 'title' and 'transcript'. *)
Record comic_data := ComicData {
  image_url : str;
  title : str;
  transcript : str
}.

Section with_env.
Context (E : env).

Definition fetch_webpage (url : str) : M (option node) :=
  try_except
    (response <- IO.requests_get E url ;;
     IO.raise_for_status response ;;;
     ret (Some (html_parser E (text response))))
    [RequestException]
    (fun e =>
       print (Py.lit "Error fetching " ++ url ++ Py.lit ": " ++ exn_msg e) ;;;
       ret None).

(** [obj.find(...)] where [obj] may be None. *)
Definition call_find (obj : option node)
           (p : str -> list (str * str) -> bool) : M (option node) :=
  match obj with
  | None =>
      raise (Exn AttributeError
               (Py.lit "'NoneType' object has no attribute 'find'"))
  | Some n => ret (Soup.find p n)
  end.

(** [obj.get_text()] where [obj] may be None. *)
Definition call_get_text (obj : option node) : M str :=
  match obj with
  | None =>
      raise (Exn AttributeError
               (Py.lit "'NoneType' object has no attribute 'get_text'"))
  | Some n => ret (Soup.get_text n)
  end.

(** [obj[key]] where [obj] may be None. *)
Definition getitem (obj : option node) (key : str) : M str :=
  match obj with
  | None =>
      raise (Exn TypeError
               (Py.lit "'NoneType' object is not subscriptable"))
  | Some (Tag _ attrs _) =>
      match Soup.attr key attrs with
      | Some v => ret v
      | None => raise (Exn KeyError (Py.lit "'" ++ key ++ Py.lit "'"))
      end
  | Some (NavigableString _) =>
      raise (Exn TypeError (Py.lit "string indices must be integers"))
  end.

Definition extract_comic_data (soup : node) : M (option comic_data) :=
  try_except
    (comic <- ret (Soup.find (Soup.by_id (Py.lit "comic")) soup) ;;
     comic_img <- call_find comic (Soup.by_name (Py.lit "img")) ;;
     image_url <- getitem comic_img (Py.lit "src") ;;
     title <- call_get_text
                (Soup.find (Soup.by_id (Py.lit "ctitle")) soup) ;;
     transcript <- call_get_text
                     (Soup.find (Soup.by_id (Py.lit "transcript")) soup) ;;
     ret (Some (ComicData image_url title transcript)))
    [AttributeError; KeyError; TypeError]
    (fun e =>
       print (Py.lit "Error extracting comic data: " ++ exn_msg e) ;;;
       ret None).

(** The URL [download_image] requests: its first two lines. *)
Definition normalize_url (image_url : str) : str :=
  if Py.startswith image_url (Py.lit "//")
  then Py.lit "https:" ++ image_url
  else image_url.

Definition download_image (image_url : str) : M (option bytes) :=
  let image_url :=
    if Py.startswith image_url (Py.lit "//")
    then Py.lit "https:" ++ image_url
    else image_url in
  try_except
    (response <- IO.requests_get E image_url ;;
     IO.raise_for_status response ;;;
     ret (Some (content_of response)))
    [RequestException]
    (fun e =>
       print (Py.lit "Error downloading image from " ++ image_url
              ++ Py.lit ": " ++ exn_msg e) ;;;
       ret None).

Definition save_image (image_data : bytes) (filepath : str) : M bool :=
  try_except
    (IO.with_open_write E filepath WB (Binary image_data) ;;;
     ret true)
    [OSError]
    (fun e =>
       print (Py.lit "Error saving image to " ++ filepath
              ++ Py.lit ": " ++ exn_msg e) ;;;
       ret false).

Definition save_transcript (transcript : str) (filepath : str) : M bool :=
  try_except
    (IO.with_open_write E filepath W (Text transcript) ;;;
     ret true)
    [OSError]
    (fun e =>
       print (Py.lit "Error saving transcript to " ++ filepath
              ++ Py.lit ": " ++ exn_msg e) ;;;
       ret false).

(** [f"{sanitized_title}.{file_extension}"] *)
Definition image_path_of (d : comic_data) : str :=
  sanitize_filename (title d) ++ Py.lit "."
  ++ get_file_extension (image_url d).

(** [f"{sanitized_title}_transcript.txt"] *)
Definition transcript_path_of (d : comic_data) : str :=
  sanitize_filename (title d) ++ Py.lit "_transcript.txt".

Definition get_comic (comic_index : Z) : M bool :=
  let url := XKCD_BASE_URL ++ Py.str_of_int comic_index in
  soup <- fetch_webpage url ;;
  match soup with
  | None => ret false
  | Some soup =>
      comic_data <- extract_comic_data soup ;;
      match comic_data with
      | None => ret false
      | Some comic_data =>
          let sanitized_title := sanitize_filename (title comic_data) in
          image_data <- download_image (image_url comic_data) ;;
          match image_data with
          | None => ret false
          | Some image_data =>
              let file_extension :=
                get_file_extension (image_url comic_data) in
              let image_path :=
                sanitized_title ++ Py.lit "." ++ file_extension in
              saved <- save_image image_data image_path ;;
              if negb saved then ret false
              else
                let transcript_path :=
                  sanitized_title ++ Py.lit "_transcript.txt" in
                saved <- save_transcript (transcript comic_data)
                                         transcript_path ;;
                if negb saved then ret false
                else
                  print (Py.lit "Successfully downloaded comic "
                         ++ Py.str_of_int comic_index ++ Py.lit ": "
                         ++ title comic_data) ;;;
                  ret true
          end
      end
  end.

Definition get_current_comic : M bool :=
  soup <- fetch_webpage XKCD_BASE_URL ;;
  match soup with
  | None => ret false
  | Some soup =>
      comic_data <- extract_comic_data soup ;;
      match comic_data with
      | None => ret false
      | Some comic_data =>
          let sanitized_title := sanitize_filename (title comic_data) in
          image_data <- download_image (image_url comic_data) ;;
          match image_data with
          | None => ret false
          | Some image_data =>
              let file_extension :=
                get_file_extension (image_url comic_data) in
              let image_path :=
                sanitized_title ++ Py.lit "." ++ file_extension in
              saved <- save_image image_data image_path ;;
              if negb saved then ret false
              else
                print (Py.lit "Successfully downloaded current comic: "
                       ++ title comic_data) ;;;
                ret true
          end
      end
  end.

(** What [fetch_webpage] and [download_image] have in common: one GET,
    the status check, and the handler of requests.RequestException. *)
Definition http_step {A} (url : str) (f : response -> A) (prefix : str)
  : M (option A) :=
  try_except
    (response <- IO.requests_get E url ;;
     IO.raise_for_status response ;;;
     ret (Some (f response)))
    [RequestException]
    (fun e =>
       print (prefix ++ url ++ Py.lit ": " ++ exn_msg e) ;;;
       ret None).

(** What [save_image] and [save_transcript] have in common: the open,
    the write, and the handler of IOError. *)
Definition save_step (path : str) (m : mode) (c : content) (prefix : str)
  : M bool :=
  try_except
    (IO.with_open_write E path m c ;;; ret true)
    [OSError]
    (fun e =>
       print (prefix ++ path ++ Py.lit ": " ++ exn_msg e) ;;;
       ret false).

End with_env.

(** The actions that open or write no file in text mode. *)
Definition binary_only (e : event) : Prop :=
  match e with
  | Open _ W => False
  | Write _ (Text _) => False
  | _ => True
  end.

(** The document has the three elements [extract_comic_data] looks up,
    with the values of [d]: a tag with id "comic" over an "img" tag with a
    "src" attribute, a tag with id "ctitle" and one with id "transcript". *)
Definition has_comic (soup : node) (d : comic_data) : Prop :=
  exists comic name attrs children t tr,
    Soup.find (Soup.by_id (Py.lit "comic")) soup = Some comic
    /\ Soup.find (Soup.by_name (Py.lit "img")) comic
       = Some (Tag name attrs children)
    /\ Soup.attr (Py.lit "src") attrs = Some (image_url d)
    /\ Soup.find (Soup.by_id (Py.lit "ctitle")) soup = Some t
    /\ title d = Soup.get_text t
    /\ Soup.find (Soup.by_id (Py.lit "transcript")) soup = Some tr
    /\ transcript d = Soup.get_text tr.

(** What the daily run asks of the clock and of the operating system. The
    paths of the world are the paths as the program names them; after
    [os.chdir] the relative ones are resolved in the new directory. *)
Record daily_env := DailyEnv {
  (* datetime.datetime.now().strftime("%Y-%m-%d") *)
  today : str;
  (* the exception os.makedirs(path, exist_ok=True) raises, if any *)
  makedirs_fault : str -> option exn;
  (* the exception os.chdir(path) raises, if any *)
  chdir_fault : str -> option exn
}.

Section daily.
Context (E : env) (D : daily_env).

(** [os.makedirs(path, exist_ok=True)] *)
Definition os_makedirs (path : str) : M unit :=
  fun w => match makedirs_fault D path with
           | Some e => (Raise e, w)
           | None => (Ret tt, w)
           end.

(** [os.chdir(path)] *)
Definition os_chdir (path : str) : M unit :=
  fun w => match chdir_fault D path with
           | Some e => (Raise e, w)
           | None => (Ret tt, w)
           end.

Definition setup_daily_directory : M str :=
  let date := today D in
  let project_root := project_root E in
  let data_dir :=
    Py.path_join (Py.path_join project_root (Py.lit "data")) date in
  os_makedirs data_dir ;;;
  ret data_dir.

Definition main : M unit :=
  data_dir <- setup_daily_directory ;;
  os_chdir data_dir ;;;
  print (Py.lit "Saving comic to: " ++ data_dir) ;;;
  success <- get_current_comic E ;;
  if success
  then print (Py.lit "Comic download completed successfully!")
  else print (Py.lit "Failed to download comic.").

End daily.

End Scraper.

(* ===================================================================== *)
(** * src/update_readme.py *)
(* ===================================================================== *)

Module UpdateReadme.

Definition nl : str := [10%N].

(** The f-string of [update_readme]. *)
Definition readme_content (date title image_path : str) : str :=
  Py.lit "# xkcd Daily" ++ nl ++ nl
  ++ Py.lit "#### " ++ date ++ nl ++ nl
  ++ Py.lit "## " ++ title ++ nl ++ nl
  ++ Py.lit "![" ++ title ++ Py.lit "](" ++ image_path ++ Py.lit ")" ++ nl
  ++ nl ++ Py.lit "---" ++ nl ++ nl
  ++ Py.lit "*This README is automatically updated with the latest xkcd comic.*"
  ++ nl.

Section with_env.
Context (E : env).

Definition data_dir : str := Py.path_join (project_root E) (Py.lit "data").

(** [[d for d in names if os.path.isdir(os.path.join(data_dir, d))]]:
    the subdirectories among the names of the data directory. *)
Definition subdirs (names : list str) : list str :=
  List.filter (fun d => isdir E (Py.path_join data_dir d)) names.

(** [sorted([d for d in names if os.path.isdir(os.path.join(data_dir, d))],
    reverse=True)], for [names] the listing of the data directory. *)
Definition date_dirs (names : list str) : list str :=
  Py.sorted (subdirs names) true.

Definition get_most_recent_comic : M (option (str * str * str)) :=
  if negb (path_exists E data_dir) then
    print (Py.lit "Data directory not found: " ++ data_dir) ;;;
    ret None
  else
    names <- IO.os_listdir E data_dir ;;
    match date_dirs names with
    | [] =>
        print (Py.lit "No date directories found in data folder") ;;;
        ret None
    | most_recent_date :: _ =>
        let most_recent_dir := Py.path_join data_dir most_recent_date in
        match glob E (Py.path_join most_recent_dir (Py.lit "*.png")) with
        | [] =>
            print (Py.lit "No PNG files found in " ++ most_recent_dir) ;;;
            ret None
        | image_path :: _ =>
            let comic_title := Py.path_stem image_path in
            let rel_image_path := relpath E image_path (project_root E) in
            let rel_image_path :=
              Py.replace (Py.chr " ") (Py.lit "%20") rel_image_path in
            ret (Some (most_recent_date, comic_title, rel_image_path))
        end
    end.

Definition update_readme : M unit :=
  let readme_path := Py.path_join (project_root E) (Py.lit "README.md") in
  comic_info <- get_most_recent_comic ;;
  match comic_info with
  | None => print (Py.lit "No comic found to update README")
  | Some (date, title, image_path) =>
      IO.with_open_write E readme_path W
        (Text (readme_content date title image_path)) ;;;
      print (Py.lit "README updated successfully with comic: " ++ title)
  end.

End with_env.
End UpdateReadme.

(* ===================================================================== *)
(** * src/what_xkcd.py *)
(* ===================================================================== *)

Module WhatXkcd.

(** The objects the module's names are bound to. *)
Inductive pyobj :=
| PyModule (name : str)
| PyClass (name : str)
| PyFunction (name : str)
| PyStr (s : str)
| PyBuiltin (name : str).

Section with_env.
Context (E : env).

(** The global names of the module when line 21 is reached: those the
    imports of lines 1 to 6 bind, [root] (line 10) and
    [choose_random_comic] (line 13), after the names every module has. *)
Definition module_globals : list (str * pyobj) :=
  [ (Py.lit "__name__", PyStr (Py.lit "__main__"));
    (Py.lit "__doc__", PyBuiltin (Py.lit "None"));
    (Py.lit "__package__", PyBuiltin (Py.lit "None"));
    (Py.lit "__loader__", PyBuiltin (Py.lit "SourceFileLoader"));
    (Py.lit "__spec__", PyBuiltin (Py.lit "None"));
    (Py.lit "__file__", PyStr (Py.lit "what_xkcd.py"));
    (Py.lit "__builtins__", PyModule (Py.lit "builtins"));
    (Py.lit "SourceSansProSemibold", PyStr (Py.lit "SourceSansProSemibold"));
    (Py.lit "Image", PyModule (Py.lit "PIL.Image"));
    (Py.lit "ImageFont", PyModule (Py.lit "PIL.ImageFont"));
    (Py.lit "ImageDraw", PyModule (Py.lit "PIL.ImageDraw"));
    (Py.lit "InkyWHAT", PyClass (Py.lit "InkyWHAT"));
    (Py.lit "scraper", PyModule (Py.lit "scraper"));
    (Py.lit "random", PyModule (Py.lit "random"));
    (Py.lit "os", PyModule (Py.lit "os"));
    (Py.lit "root", PyStr (script_root E));
    (Py.lit "choose_random_comic", PyFunction (Py.lit "choose_random_comic")) ].

Fixpoint lookup_name (name : str) (ns : list (str * pyobj)) : option pyobj :=
  match ns with
  | [] => None
  | (k, v) :: rest =>
      if bool_decide (k = name) then Some v else lookup_name name rest
  end.

(** Reading a name at module level: the globals, then the builtins,
    else a NameError. *)
Definition load_name (name : str) : M pyobj :=
  match lookup_name name module_globals with
  | Some o => ret o
  | None =>
      if bool_decide (name ∈ builtins E) then ret (PyBuiltin name)
      else raise (Exn NameError
                    (Py.lit "name '" ++ name ++ Py.lit "' is not defined"))
  end.

(** [obj.get_current_comic()]: the function of src/scraper.py when
    [obj] is that module. *)
Definition call_get_current_comic (obj : pyobj) : M bool :=
  match obj with
  | PyModule m =>
      if bool_decide (m = Py.lit "scraper")
      then Scraper.get_current_comic E
      else raise (Exn AttributeError
                    (Py.lit "module has no attribute 'get_current_comic'"))
  | _ =>
      raise (Exn AttributeError
               (Py.lit "object has no attribute 'get_current_comic'"))
  end.

Definition choose_random_comic : M str :=
  comics <- IO.os_listdir E (Py.lit "comics") ;;
  if bool_decide (comics = []) then
    raise (Exn ValueError (Py.lit "empty range for randrange()"))
  else
    match comics !! Z.to_nat (randint E 0 (Z.of_nat (length comics) - 1)) with
    | None => raise (Exn IndexError (Py.lit "list index out of range"))
    | Some comic =>
        print (Py.lit "chose comic: " ++ comic) ;;;
        let path :=
          Py.path_join (Py.path_join (script_root E) (Py.lit "comics"))
                       comic in
        IO.device_call E (ImageOpen path) ;;;
        ret path
    end.

(** [int((float(a) / b) * c)]: the division raises when [b] is 0 (the
    messages are those of CPython up to 3.13). *)
Definition scaled (a b c : Z) : M Z :=
  if Z.eqb b 0 then
    raise (Exn ZeroDivisionError (Py.lit "float division by zero"))
  else ret (scale E a b c).

(** [a / b] on two ints, for its exception only. *)
Definition true_div (a b : Z) : M unit :=
  if Z.eqb b 0 then
    raise (Exn ZeroDivisionError (Py.lit "division by zero"))
  else ret tt.

(** [(255, 255, 255, 0, 0, 0, 255, 0, 0) + (0, 0, 0) * 252]: white,
    black and red, then 252 times black. *)
Definition palette : list Z :=
  [255; 255; 255; 0; 0; 0; 255; 0; 0] ++ concat (replicate 252 [0; 0; 0]).

(** Lines 26 to 65: what the main block does with the chosen image. *)
Definition render (comic_image : str) : M unit :=
  IO.device_call E (NewDisplay (Py.lit "black")) ;;;
  IO.device_call E SetBorder ;;;
  let '(w, h) := image_size E comic_image in
  box <- (if Z.ltb h w then
            let w_new := 400 in
            h_new <- scaled h w w_new ;;
            let h_cropped := 300 in
            IO.device_call E (Resize w_new h_new) ;;;
            (* img_ratio = w_new / h_new *)
            true_div w_new h_new ;;;
            let y0 := Z.quot (h_new - h_cropped) 2 in
            ret (0, y0, w_new, y0 + h_cropped)
          else
            let h_new := 300 in
            w_new <- scaled w h h_new ;;
            let w_cropped := 400 in
            IO.device_call E (Resize w_new h_new) ;;;
            let x0 := Z.quot (w_new - w_cropped) 2 in
            ret (x0, 0, x0 + w_cropped, h_new)) ;;
  let '(x0, y0, x1, y1) := box in
  IO.device_call E (Crop x0 y0 x1 y1) ;;;
  IO.device_call E NewPalette ;;;
  IO.device_call E (PutPalette palette) ;;;
  IO.device_call E ConvertRGB ;;;
  IO.device_call E Quantize ;;;
  IO.device_call E (Rotate 180) ;;;
  IO.device_call E SetImage ;;;
  IO.device_call E Show.

(** The block under [if __name__ == '__main__']. *)
Definition main_block : M unit :=
  xkdc_scraper <- load_name (Py.lit "xkdc_scraper") ;;
  call_get_current_comic xkdc_scraper ;;;
  comic_image <- choose_random_comic ;;
  render comic_image.

(** [import module]: runs the module, which may raise. *)
Definition import_module (module : str) : M unit :=
  fun w => match import_fault E module with
           | Some e => (Raise e, w)
           | None => (Ret tt, w)
           end.

(** The script run as [__main__]: the imports of lines 1 to 6, the two
    bindings of lines 10 and 13, then the main block. *)
Definition script : M unit :=
  import_module (Py.lit "font_source_sans_pro") ;;;
  import_module (Py.lit "PIL") ;;;
  import_module (Py.lit "inky") ;;;
  import_module (Py.lit "scraper") ;;;
  import_module (Py.lit "random") ;;;
  import_module (Py.lit "os") ;;;
  main_block.

End with_env.
End WhatXkcd.

(* ===================================================================== *)
(** * Concrete runs *)
(* ===================================================================== *)

(** A small site and file system on which the scripts can be run. *)
Module Demo.
Import Py.

Definition image_src : str := lit "//imgs.xkcd.com/comics/test.png".

Definition png : bytes := [137; 80; 78; 71]%N.

(** A comic page: title, image and transcript. *)
Definition page : node :=
  Tag (lit "[document]") []
    [ Tag (lit "div") [(lit "id", lit "ctitle")]
        [NavigableString (lit "Test Comic")];
      Tag (lit "div") [(lit "id", lit "comic")]
        [Tag (lit "img") [(lit "src", image_src)] []];
      Tag (lit "div") [(lit "id", lit "transcript")]
        [NavigableString (lit "A test.")] ].

(** A page without a comic. *)
Definition empty_page : node := Tag (lit "[document]") [] [].

Definition parser (body : str) : node :=
  if bool_decide (body = lit "comic") then page else empty_page.

Definition served (url body : str) : response :=
  Response 200 (lit "OK") url body png.

Definition refused (code : Z) (why url : str) : response :=
  Response code why url [] [].

(** Every URL is served; pages carry the comic. *)
Definition site_ok (url : str) : result response :=
  Ret (served url (lit "comic")).

(** Every URL is served; pages carry no comic. *)
Definition site_no_comic (url : str) : result response :=
  Ret (served url (lit "nothing")).

(** The pages are served, the image is not found. *)
Definition site_image_404 (url : str) : result response :=
  if bool_decide (url = lit "https://imgs.xkcd.com/comics/test.png")
  then Ret (refused 404 (lit "Not Found") url)
  else Ret (served url (lit "comic")).

(** Every URL is answered with the given status. *)
Definition site_status (code : Z) (why : str) (url : str) : result response :=
  Ret (refused code why url).

Definition make_env (site : str -> result response)
           (dirs pngs : list str) : env :=
  {| net := fun _ url => site url;
     html_parser := parser;
     open_fault := fun _ _ _ => None;
     write_fault := fun _ _ _ => None;
     project_root := lit "/repo";
     path_exists := fun _ => true;
     listdir := fun _ => Ret dirs;
     isdir := fun _ => true;
     glob := fun _ => pngs;
     relpath := fun p _ => p;
     script_root := lit "/repo/src";
     import_fault := fun _ => None;
     builtins := [lit "print"; lit "int"; lit "float"; lit "len"];
     randint := fun a _ => a;
     image_size := fun _ => (800, 600);
     scale := fun a b c => a * c / b;
     device_fault := fun _ _ => None |}.

Definition env_ok : env := make_env site_ok [] [].
Definition env_no_comic : env := make_env site_no_comic [] [].
Definition env_image_404 : env := make_env site_image_404 [] [].
Definition env_304 : env :=
  make_env (site_status 304 (lit "Not Modified")) [] [].
Definition env_404 : env :=
  make_env (site_status 404 (lit "Not Found")) [] [].

(** The data directory of the README example; [pngs] is what the glob
    finds. *)
Definition env_three_dates (pngs : list str) : env :=
  make_env site_ok
    [lit "2024-01-05"; lit "2024-01-20"; lit "2023-12-31"] pngs.

Definition w0 : world := {| files := ∅; trace := [] |}.

(** [env_ok] where every [open] for writing is refused. *)
Definition env_read_only : env :=
  {| net := net env_ok;
     html_parser := html_parser env_ok;
     open_fault := fun _ _ _ => Some (Exn OSError (lit "Permission denied"));
     write_fault := write_fault env_ok;
     project_root := project_root env_ok;
     path_exists := path_exists env_ok;
     listdir := listdir env_ok;
     isdir := isdir env_ok;
     glob := glob env_ok;
     relpath := relpath env_ok;
     script_root := script_root env_ok;
     import_fault := import_fault env_ok;
     builtins := builtins env_ok;
     randint := randint env_ok;
     image_size := image_size env_ok;
     scale := scale env_ok;
     device_fault := device_fault env_ok |}.

(** [env_ok] where the transcript cannot be opened. *)
Definition env_no_transcript : env :=
  {| net := net env_ok;
     html_parser := html_parser env_ok;
     open_fault := fun _ _ m =>
       match m with
       | W => Some (Exn OSError (lit "Permission denied"))
       | WB => None
       end;
     write_fault := write_fault env_ok;
     project_root := project_root env_ok;
     path_exists := path_exists env_ok;
     listdir := listdir env_ok;
     isdir := isdir env_ok;
     glob := glob env_ok;
     relpath := relpath env_ok;
     script_root := script_root env_ok;
     import_fault := import_fault env_ok;
     builtins := builtins env_ok;
     randint := randint env_ok;
     image_size := image_size env_ok;
     scale := scale env_ok;
     device_fault := device_fault env_ok |}.

(** The data directory of the README example with the image of the most
    recent date. *)
Definition env_readme : env :=
  env_three_dates [lit "/repo/data/2024-01-20/Test Comic.png"].

(** The same on a project root where no file can be opened for writing. *)
Definition env_readme_read_only : env :=
  {| net := net env_readme;
     html_parser := html_parser env_readme;
     open_fault := open_fault env_read_only;
     write_fault := write_fault env_readme;
     project_root := project_root env_readme;
     path_exists := path_exists env_readme;
     listdir := listdir env_readme;
     isdir := isdir env_readme;
     glob := glob env_readme;
     relpath := relpath env_readme;
     script_root := script_root env_readme;
     import_fault := import_fault env_readme;
     builtins := builtins env_readme;
     randint := randint env_readme;
     image_size := image_size env_readme;
     scale := scale env_readme;
     device_fault := device_fault env_readme |}.

(** A directory of two cached comics. *)
Definition env_comics : env :=
  make_env site_ok [lit "a.png"; lit "b.png"] [].

(** The same directory, where the files are no images: [Image.open]
    raises. *)
Definition env_no_image : env :=
  {| net := net env_comics;
     html_parser := html_parser env_comics;
     open_fault := open_fault env_comics;
     write_fault := write_fault env_comics;
     project_root := project_root env_comics;
     path_exists := path_exists env_comics;
     listdir := listdir env_comics;
     isdir := isdir env_comics;
     glob := glob env_comics;
     relpath := relpath env_comics;
     script_root := script_root env_comics;
     import_fault := import_fault env_comics;
     builtins := builtins env_comics;
     randint := randint env_comics;
     image_size := image_size env_comics;
     scale := scale env_comics;
     device_fault := fun _ op =>
       match op with
       | ImageOpen _ => Some (Exn OSError (lit "cannot identify image file"))
       | _ => None
       end |}.


(** [env_ok] on a full disk: a write fails after the first byte, or
    character. *)
Definition env_disk_full : env :=
  {| net := net env_ok;
     html_parser := html_parser env_ok;
     open_fault := open_fault env_ok;
     write_fault := fun _ _ c =>
       Some (Exn OSError (lit "No space left on device"),
             match c with
             | Binary b => Binary (take 1 b)
             | Text s => Text (take 1 s)
             end);
     project_root := project_root env_ok;
     path_exists := path_exists env_ok;
     listdir := listdir env_ok;
     isdir := isdir env_ok;
     glob := glob env_ok;
     relpath := relpath env_ok;
     script_root := script_root env_ok;
     import_fault := import_fault env_ok;
     builtins := builtins env_ok;
     randint := randint env_ok;
     image_size := image_size env_ok;
     scale := scale env_ok;
     device_fault := device_fault env_ok |}.

(** A day on which the daily directory can be made and entered, and one on
    which it cannot be made. *)
Definition day_ok : Scraper.daily_env :=
  {| Scraper.today := lit "2024-01-20";
     Scraper.makedirs_fault := fun _ => None;
     Scraper.chdir_fault := fun _ => None |}.

Definition day_no_directory : Scraper.daily_env :=
  {| Scraper.today := lit "2024-01-20";
     Scraper.makedirs_fault :=
       fun _ => Some (Exn OSError (lit "Permission denied"));
     Scraper.chdir_fault := fun _ => None |}.

End Demo.

(* ===================================================================== *)
(** * Proofs *)
(* ===================================================================== *)

(* ===================================================================== *)
(** * Strings *)
(* ===================================================================== *)

Section strings.
Import Py.

Lemma contains_elem_of (xs : list char) (c : char) :
  contains xs c = true ↔ c ∈ xs.
Proof.
  induction xs as [|x xs IH]; simpl.
  - split; [discriminate | intros H; inversion H].
  - destruct (N.eqb_spec c x) as [->|Hne].
    + split; [intros _; left | reflexivity].
    + rewrite IH, elem_of_cons. split; [by right | by intros [?|?]].
Qed.

Lemma filter_all_true {A} (f : A → bool) (l : list A) :
  (∀ x, x ∈ l → f x = true) → List.filter f l = l.
Proof.
  induction l as [|x l IH]; simpl; intros H; [reflexivity|].
  rewrite (H x) by left. f_equal. apply IH. intros y Hy. apply H. by right.
Qed.

Lemma filter_sublist {A} (f : A → bool) (l : list A) :
  sublist (List.filter f l) l.
Proof.
  induction l as [|x l IH]; simpl; [constructor|].
  destruct (f x); by constructor.
Qed.

Lemma sublist_filter_mono {A} (f : A → bool) (t l : list A) :
  sublist t l → sublist (List.filter f t) (List.filter f l).
Proof.
  induction 1 as [|x t l _ IH|x t l _ IH]; simpl.
  - constructor.
  - destruct (f x); [by constructor | exact IH].
  - destruct (f x); [by constructor | exact IH].
Qed.

Lemma startswith_prefix (s p : str) :
  startswith s p = true ↔ ∃ rest, s = p ++ rest.
Proof.
  revert s. induction p as [|c p IH]; intros s; simpl.
  - split; [eauto | by destruct s].
  - destruct s as [|d s]; simpl.
    + split; [discriminate | intros [r Hr]; discriminate].
    + destruct (N.eqb d c) eqn:Hdc; simpl.
      * apply N.eqb_eq in Hdc as ->. rewrite IH.
        split; intros [r Hr]; exists r; simpl in *; congruence.
      * apply N.eqb_neq in Hdc.
        split; [discriminate | intros [r Hr]; simpl in Hr; congruence].
Qed.

Lemma split_not_nil (sep : char) (s : str) : split sep s ≠ [].
Proof.
  induction s as [|c s IH]; simpl; [discriminate|].
  destruct (N.eqb c sep); [discriminate|].
  destruct (split sep s); [contradiction | discriminate].
Qed.

Lemma split_no_sep (sep : char) (s : str) : sep ∉ s → split sep s = [s].
Proof.
  induction s as [|c s IH]; simpl; intros H; [reflexivity|].
  rewrite not_elem_of_cons in H. destruct H as [Hc Hs].
  destruct (N.eqb_spec c sep) as [->|_]; [contradiction|].
  by rewrite IH.
Qed.

Lemma split_app_sep (sep : char) (a b : str) :
  split sep (a ++ sep :: b) = split sep a ++ split sep b.
Proof.
  induction a as [|c a IH]; simpl.
  - by rewrite N.eqb_refl.
  - destruct (N.eqb c sep); rewrite IH; [reflexivity|].
    pose proof (split_not_nil sep a) as Hne.
    destruct (split sep a); [contradiction | reflexivity].
Qed.

Lemma split_segments_no_sep (sep : char) (s : str) :
  Forall (fun seg => sep ∉ seg) (split sep s).
Proof.
  induction s as [|c s IH]; simpl.
  - repeat constructor. inversion 1.
  - destruct (N.eqb_spec c sep) as [->|Hne].
    + constructor; [inversion 1 | exact IH].
    + destruct (split sep s) as [|seg segs].
      * repeat constructor. rewrite elem_of_cons. intros [?|H]; [done | inversion H].
      * inversion IH; subst. constructor; [|assumption].
        rewrite not_elem_of_cons. split; [congruence | assumption].
Qed.

Lemma split_last_some (sep : char) (s : str) :
  ∃ seg, item_neg1 (split sep s) = Some seg.
Proof.
  unfold item_neg1. pose proof (split_not_nil sep s) as H.
  destruct (last (split sep s)) as [seg|] eqn:Hl; [eauto|].
  apply last_None in Hl. contradiction.
Qed.

Lemma split_last_after_sep (sep : char) (a b : str) :
  sep ∉ b → item_neg1 (split sep (a ++ sep :: b)) = Some b.
Proof.
  intros Hb. unfold item_neg1.
  rewrite split_app_sep, (split_no_sep sep b Hb). apply last_snoc.
Qed.

Lemma count_app (c : char) (a b : str) : count c (a ++ b) = (count c a + count c b)%nat.
Proof. unfold count. by rewrite filter_app, length_app. Qed.

Lemma count_not_in (c : char) (s : str) : c ∉ s → count c s = 0%nat.
Proof.
  unfold count. induction s as [|x s IH]; intros H; [reflexivity|].
  rewrite not_elem_of_cons in H. destruct H as [Hx Hs].
  rewrite filter_cons_False by congruence. auto.
Qed.

Lemma rfind_not_in (c : char) (s : str) : c ∉ s → rfind c s = None.
Proof.
  induction s as [|x s IH]; simpl; intros H; [reflexivity|].
  rewrite not_elem_of_cons in H. destruct H as [Hx Hs].
  rewrite IH by assumption. destruct (N.eqb_spec x c); congruence.
Qed.

Lemma rfind_last (c : char) (a b : str) :
  c ∉ b → rfind c (a ++ c :: b) = Some (length a).
Proof.
  intros Hb. induction a as [|x a IH]; simpl.
  - by rewrite (rfind_not_in c b Hb), N.eqb_refl.
  - by rewrite IH.
Qed.

Example str_of_int_negative : str_of_int (-5) = lit "-5".
Proof. reflexivity. Qed.

End strings.

(* ===================================================================== *)
(** * The order of strings and [sorted] *)
(* ===================================================================== *)

Section order.
Import Py.

Lemma str_ltb_cons (x y : char) (a b : str) :
  str_ltb (x :: a) (y :: b) = true ↔ (x < y)%N ∨ (x = y ∧ str_ltb a b = true).
Proof.
  simpl. destruct (N.ltb_spec x y) as [Hlt|Hge].
  - split; [by left | done].
  - destruct (N.eqb_spec x y) as [Heq|Hne].
    + split; [by right | intros [?|[_ ?]]; [lia | done]].
    + split; [done | intros [?|[? _]]; [lia | done]].
Qed.

Lemma str_ltb_asym (a b : str) : str_ltb a b = true → str_ltb b a = false.
Proof.
  revert b. induction a as [|x a IH]; intros [|y b]; try done.
  rewrite str_ltb_cons. intros H.
  apply not_true_is_false. rewrite str_ltb_cons.
  intros [Hlt|[Heq Hba]]; destruct H as [Hlt'|[Heq' Hab]]; try lia.
  apply IH in Hab. congruence.
Qed.

Lemma str_le_cons (x y : char) (a b : str) :
  str_le (x :: a) (y :: b) ↔ (x < y)%N ∨ (x = y ∧ str_le a b).
Proof.
  unfold str_le. rewrite <-not_true_iff_false, str_ltb_cons.
  destruct (str_ltb b a); split.
  - intros H. left. destruct (N.lt_trichotomy x y) as [?|[?|?]]; [done| |].
    + exfalso. apply H. right. done.
    + exfalso. apply H. by left.
  - intros [?|[? ?]] [?|[? _]]; try lia; done.
  - intros H. destruct (N.lt_trichotomy x y) as [?|[?|?]];
      [by left | by right | exfalso; apply H; by left].
  - intros [?|[? _]] [?|[? ?]]; try lia; done.
Qed.

Lemma str_le_total : Total str_le.
Proof.
  intros a b. unfold str_le.
  destruct (str_ltb b a) eqn:Hba; [right | by left].
  by apply str_ltb_asym.
Qed.

Lemma str_le_trans : Transitive str_le.
Proof.
  intros a. induction a as [|x a IH]; intros b c.
  - intros _ _. unfold str_le. by destruct c.
  - destruct b as [|y b]; [done|]. destruct c as [|z c]; [done|].
    rewrite !str_le_cons. intros [?|[? Hab]] [?|[? Hbc]]; try (left; lia).
    right. split; [lia|]. by apply (IH b c).
Qed.

Lemma str_le_antisym : AntiSymm (=) str_le.
Proof.
  intros a. induction a as [|x a IH]; intros [|y b]; try done.
  rewrite !str_le_cons. intros [?|[? Hab]] [?|[? Hba]]; try lia.
  subst. f_equal. by apply IH.
Qed.

#[local] Existing Instances str_le_total str_le_trans str_le_antisym.

Lemma sorted_descending_perm (xs : list str) : sorted xs true ≡ₚ xs.
Proof.
  unfold sorted.
  by rewrite reverse_Permutation, merge_sort_Permutation, reverse_Permutation.
Qed.

Lemma sorted_descending_sorted (xs : list str) :
  StronglySorted (flip str_le) (sorted xs true).
Proof.
  unfold sorted. apply Sorted_StronglySorted; [apply _|].
  apply Sorted_reverse, Sorted_merge_sort. apply _.
Qed.

(** The first element of a descending sort is a greatest element. *)
Lemma sorted_descending_head (xs : list str) (d : str) (rest : list str) :
  sorted xs true = d :: rest →
  d ∈ xs ∧ ∀ x, x ∈ xs → str_le x d.
Proof.
  intros Hs. pose proof (sorted_descending_sorted xs) as Hsorted.
  pose proof (sorted_descending_perm xs) as Hperm.
  rewrite Hs in Hsorted, Hperm.
  split; [rewrite <-Hperm; left|].
  intros x Hx. rewrite <-Hperm in Hx.
  apply StronglySorted_cons in Hsorted as [Hall _].
  apply elem_of_cons in Hx as [->|Hx].
  - destruct (total str_le d d); done.
  - rewrite Forall_forall in Hall. by apply Hall.
Qed.


End order.

(* ===================================================================== *)
(** * The world: projections of the trace *)
(* ===================================================================== *)

Section world.

Lemma files_emit e w : files (emit e w) = files w.
Proof. reflexivity. Qed.

Lemma files_put_file p c w : files (put_file p c w) = <[p := c]> (files w).
Proof. reflexivity. Qed.

Lemma trace_emit e w : trace (emit e w) = trace w ++ [e].
Proof. reflexivity. Qed.

Lemma trace_put_file p c w : trace (put_file p c w) = trace w.
Proof. reflexivity. Qed.

Lemma actions_put_file p c w : actions (put_file p c w) = actions w.
Proof. reflexivity. Qed.

Lemma actions_emit e w :
  actions (emit e w) = actions w ++ (if is_action e then [e] else []).
Proof. unfold actions. rewrite trace_emit, List.filter_app. by destruct e. Qed.

Lemma opened_put_file p c w : opened (put_file p c w) = opened w.
Proof. reflexivity. Qed.

Lemma opened_emit e w :
  opened (emit e w) =
  opened w ++ match e with Open p _ => [p] | _ => [] end.
Proof. unfold opened. rewrite trace_emit, omap_app. by destruct e. Qed.

Lemma requested_put_file p c w : requested (put_file p c w) = requested w.
Proof. reflexivity. Qed.

Lemma requested_emit e w :
  requested (emit e w) =
  requested w ++ match e with Get u => [u] | _ => [] end.
Proof. unfold requested. rewrite trace_emit, omap_app. by destruct e. Qed.

Lemma printed_put_file p c w : printed (put_file p c w) = printed w.
Proof. reflexivity. Qed.

Lemma printed_emit e w :
  printed (emit e w) =
  printed w ++ match e with Print l => [l] | _ => [] end.
Proof. unfold printed. rewrite trace_emit, omap_app. by destruct e. Qed.

Lemma device_ops_emit e w :
  device_ops (emit e w) =
  device_ops w ++ match e with Device op => [op] | _ => [] end.
Proof. unfold device_ops. rewrite trace_emit, omap_app. by destruct e. Qed.

End world.

Create Rewrite HintDb world.

#[local] Hint Rewrite files_emit files_put_file trace_emit trace_put_file
  actions_put_file actions_emit opened_put_file opened_emit
  requested_put_file requested_emit printed_put_file printed_emit
  device_ops_emit : world.

#[local] Hint Rewrite <- app_assoc : world.
#[local] Hint Rewrite app_nil_r : world.

Ltac world_simpl := autorewrite with world; cbn.

(** Unfolding of the monad and of the input/output primitives only. *)
Ltac run_m :=
  cbv beta iota delta
    [bind ret raise try_except print IO.device_call fst snd
     IO.requests_get IO.raise_for_status IO.open_w IO.handle_write
     IO.with_open_write IO.os_listdir];
  simpl existsb; rewrite ?orb_false_r.

(* ===================================================================== *)
(** * The steps of the scraper, one equation each *)
(* ===================================================================== *)

Section steps.
Import Py Scraper.
Context (E : env).

Lemma http_step_eq {A} (url : str) (f : response → A) (prefix : str) w :
  http_step E url f prefix w =
  match net E w url with
  | Raise e =>
      if issubclass (exn_cls e) RequestException
      then (Ret None,
            emit (Print (prefix ++ url ++ Py.lit ": " ++ exn_msg e))
                 (emit (Get url) w))
      else (Raise e, emit (Get url) w)
  | Ret r =>
      match IO.http_error_msg r with
      | Some msg =>
          (Ret None,
           emit (Print (prefix ++ url ++ Py.lit ": " ++ msg))
                (emit (Get url) w))
      | None => (Ret (Some (f r)), emit (Get url) w)
      end
  end.
Proof.
  unfold http_step. run_m.
  destruct (net E w url) as [r|e].
  - destruct (IO.http_error_msg r); reflexivity.
  - destruct (issubclass (exn_cls e) RequestException); reflexivity.
Qed.

Lemma fetch_webpage_eq url :
  fetch_webpage E url =
  http_step E url (fun r => html_parser E (text r))
            (Py.lit "Error fetching ").
Proof. reflexivity. Qed.

Lemma download_image_eq image_url :
  download_image E image_url =
  http_step E (normalize_url image_url) content_of
            (Py.lit "Error downloading image from ").
Proof. reflexivity. Qed.

(** The status check passes exactly outside 400..599. *)
Lemma http_error_msg_None (r : response) :
  IO.http_error_msg r = None ↔ ¬ (400 <= status_code r < 600).
Proof.
  unfold IO.http_error_msg. repeat case_bool_decide; split; try done; lia.
Qed.

(** An HTTP step changes no file, opens none, and issues one request. *)
Lemma http_step_world {A} (url : str) (f : response → A) prefix w :
  let w' := snd (http_step E url f prefix w) in
  files w' = files w ∧ actions w' = actions w ++ [Get url].
Proof.
  rewrite http_step_eq. simpl.
  destruct (net E w url) as [r|e].
  - destruct (IO.http_error_msg r); simpl; by world_simpl.
  - destruct (issubclass _ _); simpl; by world_simpl.
Qed.

(** A step answers [None] only through its handler. *)
Lemma http_step_None {A} (url : str) (f : response → A) prefix w :
  fst (http_step E url f prefix w) = Ret None →
  ∃ msg, http_step E url f prefix w =
         (Ret None,
          emit (Print (prefix ++ url ++ Py.lit ": " ++ msg)) (emit (Get url) w)).
Proof.
  rewrite http_step_eq.
  destruct (net E w url) as [r|e].
  - destruct (IO.http_error_msg r) as [msg|]; simpl; [eauto | discriminate].
  - destruct (issubclass _ _); simpl; [eauto | discriminate].
Qed.

(** Extraction touches nothing but the standard output, and never
    raises: each of its lookups fails with a class its handler names. *)
Lemma extract_comic_data_cases soup w :
  (∃ d, extract_comic_data soup w = (Ret (Some d), w))
  ∨ (∃ msg, extract_comic_data soup w =
            (Ret None,
             emit (Print (Py.lit "Error extracting comic data: " ++ msg)) w)).
Proof.
  unfold extract_comic_data, call_find, getitem, call_get_text. run_m.
  destruct (Soup.find (Soup.by_id (lit "comic")) soup) as [comic|]; run_m;
    [|right; eauto].
  destruct (Soup.find (Soup.by_name (lit "img")) comic) as [[n a c|s]|];
    run_m; [| right; eauto | right; eauto].
  destruct (Soup.attr (lit "src") a) as [src|]; run_m; [|right; eauto].
  destruct (Soup.find (Soup.by_id (lit "ctitle")) soup) as [t|]; run_m;
    [|right; eauto].
  destruct (Soup.find (Soup.by_id (lit "transcript")) soup) as [tr|]; run_m;
    [|right; eauto].
  left. eauto.
Qed.

Lemma extract_comic_data_world soup w :
  let w' := snd (extract_comic_data soup w) in
  files w' = files w ∧ actions w' = actions w.
Proof.
  destruct (extract_comic_data_cases soup w) as [[d ->]|[msg ->]]; simpl;
    by world_simpl.
Qed.

(** Writing a file: the open, then the write, each with its fault. *)
Lemma save_step_eq path m c prefix w :
  save_step E path m c prefix w =
  let w1 := emit (Open path m) w in
  match open_fault E w path m with
  | Some e =>
      if issubclass (exn_cls e) OSError
      then (Ret false,
            emit (Print (prefix ++ path ++ Py.lit ": " ++ exn_msg e)) w1)
      else (Raise e, w1)
  | None =>
      let w2 := put_file path (empty_file m) w1 in
      let w3 := emit (Write path c) w2 in
      match write_fault E w2 path c with
      | Some (e, rest) =>
          let w4 := put_file path rest w3 in
          if issubclass (exn_cls e) OSError
          then (Ret false,
                emit (Print (prefix ++ path ++ Py.lit ": " ++ exn_msg e)) w4)
          else (Raise e, w4)
      | None => (Ret true, put_file path c w3)
      end
  end.
Proof.
  unfold save_step. run_m.
  destruct (open_fault E w path m) as [e|].
  - by destruct (issubclass _ _).
  - destruct (write_fault E _ path c) as [[e rest]|]; [|done].
    by destruct (issubclass _ _).
Qed.

Lemma save_image_eq image_data filepath :
  save_image E image_data filepath =
  save_step E filepath WB (Binary image_data)
            (Py.lit "Error saving image to ").
Proof. reflexivity. Qed.

Lemma save_transcript_eq transcript filepath :
  save_transcript E transcript filepath =
  save_step E filepath W (Text transcript)
            (Py.lit "Error saving transcript to ").
Proof. reflexivity. Qed.

(** Whatever its outcome, a save opens its path and no other. *)
Lemma save_step_opened path m c prefix w :
  opened (snd (save_step E path m c prefix w)) = opened w ++ [path].
Proof.
  rewrite save_step_eq. simpl.
  destruct (open_fault E w path m) as [e|].
  - destruct (issubclass _ _); simpl; by world_simpl.
  - destruct (write_fault E _ path c) as [[e rest]|]; [|simpl; by world_simpl].
    destruct (issubclass _ _); simpl; by world_simpl.
Qed.

(** A save that reports success has written the payload. *)
Lemma save_step_true path m c prefix w w' :
  save_step E path m c prefix w = (Ret true, w') →
  files w' = <[path := c]> (files w)
  ∧ actions w' = actions w ++ [Open path m; Write path c].
Proof.
  rewrite save_step_eq. simpl.
  destruct (open_fault E w path m) as [e|].
  - destruct (issubclass _ _); discriminate.
  - destruct (write_fault E _ path c) as [[e rest]|].
    + destruct (issubclass _ _); discriminate.
    + intros [= <-]. world_simpl. by rewrite insert_insert_eq.
Qed.

End steps.

(* ===================================================================== *)
(** * The two orchestrators *)
(* ===================================================================== *)

Section orchestrators.
Import Py Scraper.
Context (E : env).

Lemma omap_actions {A} (f : event → option A) (t : list event) :
  (∀ l, f (Print l) = None) →
  omap f (List.filter is_action t) = omap f t.
Proof.
  intros Hf. induction t as [|e t IH]; [reflexivity|].
  change (omap f) with (list_omap _ _ f) in *.
  destruct e; simpl; rewrite ?IH, ?Hf; reflexivity.
Qed.

Lemma opened_actions w :
  opened w =
  omap (fun e => match e with Open p _ => Some p | _ => None end) (actions w).
Proof. unfold opened, actions. by rewrite omap_actions. Qed.

Lemma requested_actions w :
  requested w =
  omap (fun e => match e with Get u => Some u | _ => None end) (actions w).
Proof. unfold requested, actions. by rewrite omap_actions. Qed.

(** The body of [get_comic], one step after the other. *)
Lemma get_comic_unfold (comic_index : Z) (w : world) :
  get_comic E comic_index w =
  match fetch_webpage E (XKCD_BASE_URL ++ str_of_int comic_index) w with
  | (Raise e, w1) => (Raise e, w1)
  | (Ret None, w1) => (Ret false, w1)
  | (Ret (Some soup), w1) =>
      match extract_comic_data soup w1 with
      | (Raise e, w2) => (Raise e, w2)
      | (Ret None, w2) => (Ret false, w2)
      | (Ret (Some d), w2) =>
          match download_image E (image_url d) w2 with
          | (Raise e, w3) => (Raise e, w3)
          | (Ret None, w3) => (Ret false, w3)
          | (Ret (Some img), w3) =>
              match save_image E img (image_path_of d) w3 with
              | (Raise e, w4) => (Raise e, w4)
              | (Ret false, w4) => (Ret false, w4)
              | (Ret true, w4) =>
                  match save_transcript E (transcript d)
                                        (transcript_path_of d) w4 with
                  | (Raise e, w5) => (Raise e, w5)
                  | (Ret false, w5) => (Ret false, w5)
                  | (Ret true, w5) =>
                      (Ret true,
                       emit (Print (lit "Successfully downloaded comic "
                                    ++ str_of_int comic_index ++ lit ": "
                                    ++ title d)) w5)
                  end
              end
          end
      end
  end.
Proof.
  unfold get_comic, bind, image_path_of, transcript_path_of.
  destruct (fetch_webpage E _ w) as [[[soup|]|e] w1]; try reflexivity.
  destruct (extract_comic_data soup w1) as [[[d|]|e] w2]; try reflexivity.
  destruct (download_image E _ w2) as [[[img|]|e] w3]; try reflexivity.
  destruct (save_image E img _ w3) as [[[|]|e] w4]; try reflexivity.
  cbn [negb].
  destruct (save_transcript E _ _ w4) as [[[|]|e] w5]; reflexivity.
Qed.

(** The body of [get_current_comic], likewise. *)
Lemma get_current_comic_unfold (w : world) :
  get_current_comic E w =
  match fetch_webpage E XKCD_BASE_URL w with
  | (Raise e, w1) => (Raise e, w1)
  | (Ret None, w1) => (Ret false, w1)
  | (Ret (Some soup), w1) =>
      match extract_comic_data soup w1 with
      | (Raise e, w2) => (Raise e, w2)
      | (Ret None, w2) => (Ret false, w2)
      | (Ret (Some d), w2) =>
          match download_image E (image_url d) w2 with
          | (Raise e, w3) => (Raise e, w3)
          | (Ret None, w3) => (Ret false, w3)
          | (Ret (Some img), w3) =>
              match save_image E img (image_path_of d) w3 with
              | (Raise e, w4) => (Raise e, w4)
              | (Ret false, w4) => (Ret false, w4)
              | (Ret true, w4) =>
                  (Ret true,
                   emit (Print (lit "Successfully downloaded current comic: "
                                ++ title d)) w4)
              end
          end
      end
  end.
Proof.
  unfold get_current_comic, bind, image_path_of.
  destruct (fetch_webpage E _ w) as [[[soup|]|e] w1]; try reflexivity.
  destruct (extract_comic_data soup w1) as [[[d|]|e] w2]; try reflexivity.
  destruct (download_image E _ w2) as [[[img|]|e] w3]; try reflexivity.
  destruct (save_image E img _ w3) as [[[|]|e] w4]; reflexivity.
Qed.

(** Frames of the single steps, for any outcome. *)
Lemma fetch_webpage_frame url w r w1 :
  fetch_webpage E url w = (r, w1) →
  files w1 = files w ∧ actions w1 = actions w ++ [Get url].
Proof.
  intros H. pose proof (http_step_world E url
    (fun r => html_parser E (text r)) (lit "Error fetching ") w) as Hw.
  rewrite <-fetch_webpage_eq, H in Hw. exact Hw.
Qed.

Lemma download_image_frame u w r w1 :
  download_image E u w = (r, w1) →
  files w1 = files w ∧ actions w1 = actions w ++ [Get (normalize_url u)].
Proof.
  intros H. pose proof (http_step_world E (normalize_url u) content_of
    (lit "Error downloading image from ") w) as Hw.
  rewrite <-download_image_eq, H in Hw. exact Hw.
Qed.

Lemma extract_comic_data_frame soup w r w1 :
  extract_comic_data soup w = (r, w1) →
  files w1 = files w ∧ actions w1 = actions w.
Proof.
  intros H. pose proof (extract_comic_data_world soup w) as Hw.
  rewrite H in Hw. exact Hw.
Qed.

End orchestrators.

Section scraper_claims.
Import Py Scraper.

(** A successful [get_comic] went through all six steps, in order. *)
Lemma get_comic_true (E : env) (comic_index : Z) (w w' : world) :
  get_comic E comic_index w = (Ret true, w') →
  ∃ soup d img w1 w2 w3,
    fetch_webpage E (XKCD_BASE_URL ++ str_of_int comic_index) w
      = (Ret (Some soup), w1)
    ∧ extract_comic_data soup w1 = (Ret (Some d), w2)
    ∧ download_image E (image_url d) w2 = (Ret (Some img), w3)
    ∧ actions w' =
        actions w ++
        [Get (XKCD_BASE_URL ++ str_of_int comic_index);
         Get (normalize_url (image_url d));
         Open (image_path_of d) WB;
         Write (image_path_of d) (Binary img);
         Open (transcript_path_of d) W;
         Write (transcript_path_of d) (Text (transcript d))]
    ∧ files w' =
        <[transcript_path_of d := Text (transcript d)]>
          (<[image_path_of d := Binary img]> (files w)).
Proof.
  rewrite get_comic_unfold.
  destruct (fetch_webpage E _ w) as [[[soup|]|e] w1] eqn:Hf; try discriminate.
  destruct (extract_comic_data soup w1) as [[[d|]|e] w2] eqn:Hx;
    try discriminate.
  destruct (download_image E _ w2) as [[[img|]|e] w3] eqn:Hd;
    try discriminate.
  destruct (save_image E img _ w3) as [[[|]|e] w4] eqn:Hi; try discriminate.
  destruct (save_transcript E _ _ w4) as [[[|]|e] w5] eqn:Ht;
    try discriminate.
  intros [= <-]. exists soup, d, img, w1, w2, w3.
  apply fetch_webpage_frame in Hf as Hf'. destruct Hf' as [Ff Af].
  apply extract_comic_data_frame in Hx as Hx'. destruct Hx' as [Fx Ax].
  apply download_image_frame in Hd as Hd'. destruct Hd' as [Fd Ad].
  rewrite save_image_eq in Hi. apply save_step_true in Hi as [Fi Ai].
  rewrite save_transcript_eq in Ht. apply save_step_true in Ht as [Ft At].
  repeat split; try assumption.
  - world_simpl. rewrite At, Ai, Ad, Ax, Af. by rewrite <-!app_assoc.
  - world_simpl. by rewrite Ft, Fi, Fd, Fx, Ff.
Qed.

(** C1. [get_comic] runs fetch, extract, sanitize-title, download-image,
    save-image and save-transcript in this order and returns False at the
    first step that fails: after a failed fetch or a failed extraction
    the only action of the run is the request of the page, after a failed
    download the only actions are the two requests, and in these three
    cases no file is opened and the files are untouched; a failed save of
    the image leaves the transcript unopened; when all the steps succeed
    the run returns True after the six actions, in order, the two files
    written and the closing message printed; and a run that returns True
    is such a run. *)
Theorem get_comic_short_circuit (E : env) (comic_index : Z) (w : world) :
  let url := XKCD_BASE_URL ++ str_of_int comic_index in
  let run := get_comic E comic_index w in
  (∀ w1, fetch_webpage E url w = (Ret None, w1) →
     run = (Ret false, w1)
     ∧ actions w1 = actions w ++ [Get url] ∧ files w1 = files w)
  ∧ (∀ soup w1 w2,
       fetch_webpage E url w = (Ret (Some soup), w1) →
       extract_comic_data soup w1 = (Ret None, w2) →
       run = (Ret false, w2)
       ∧ actions w2 = actions w ++ [Get url] ∧ files w2 = files w)
  ∧ (∀ soup w1 d w2 w3,
       fetch_webpage E url w = (Ret (Some soup), w1) →
       extract_comic_data soup w1 = (Ret (Some d), w2) →
       download_image E (image_url d) w2 = (Ret None, w3) →
       run = (Ret false, w3)
       ∧ actions w3 =
           actions w ++ [Get url; Get (normalize_url (image_url d))]
       ∧ opened w3 = opened w
       ∧ files w3 = files w)
  ∧ (∀ soup w1 d w2 img w3 w4,
       fetch_webpage E url w = (Ret (Some soup), w1) →
       extract_comic_data soup w1 = (Ret (Some d), w2) →
       download_image E (image_url d) w2 = (Ret (Some img), w3) →
       save_image E img (image_path_of d) w3 = (Ret false, w4) →
       run = (Ret false, w4)
       ∧ opened w4 = opened w ++ [image_path_of d])
  ∧ (∀ soup w1 d w2 img w3 w4 w5,
       fetch_webpage E url w = (Ret (Some soup), w1) →
       extract_comic_data soup w1 = (Ret (Some d), w2) →
       download_image E (image_url d) w2 = (Ret (Some img), w3) →
       save_image E img (image_path_of d) w3 = (Ret true, w4) →
       save_transcript E (transcript d) (transcript_path_of d) w4
         = (Ret false, w5) →
       run = (Ret false, w5))
  ∧ (∀ soup w1 d w2 img w3 w4 w5,
       fetch_webpage E url w = (Ret (Some soup), w1) →
       extract_comic_data soup w1 = (Ret (Some d), w2) →
       download_image E (image_url d) w2 = (Ret (Some img), w3) →
       save_image E img (image_path_of d) w3 = (Ret true, w4) →
       save_transcript E (transcript d) (transcript_path_of d) w4
         = (Ret true, w5) →
       run = (Ret true,
              emit (Print (lit "Successfully downloaded comic "
                           ++ str_of_int comic_index ++ lit ": " ++ title d))
                   w5)
       ∧ actions w5 =
           actions w ++
           [Get url; Get (normalize_url (image_url d));
            Open (image_path_of d) WB;
            Write (image_path_of d) (Binary img);
            Open (transcript_path_of d) W;
            Write (transcript_path_of d) (Text (transcript d))]
       ∧ files w5 =
           <[transcript_path_of d := Text (transcript d)]>
             (<[image_path_of d := Binary img]> (files w)))
  ∧ (∀ w', run = (Ret true, w') →
       ∃ soup d img w1 w2 w3,
         fetch_webpage E url w = (Ret (Some soup), w1)
         ∧ extract_comic_data soup w1 = (Ret (Some d), w2)
         ∧ download_image E (image_url d) w2 = (Ret (Some img), w3)
         ∧ actions w' =
             actions w ++
             [Get url; Get (normalize_url (image_url d));
              Open (image_path_of d) WB;
              Write (image_path_of d) (Binary img);
              Open (transcript_path_of d) W;
              Write (transcript_path_of d) (Text (transcript d))]
         ∧ files w' =
             <[transcript_path_of d := Text (transcript d)]>
               (<[image_path_of d := Binary img]> (files w))).
Proof.
  intros url run. subst run.
  split; [|split; [|split; [|split; [|split; [|split]]]]].
  - intros w1 Hf. rewrite get_comic_unfold. fold url. rewrite Hf.
    apply fetch_webpage_frame in Hf as [Ff Af]. done.
  - intros soup w1 w2 Hf Hx. rewrite get_comic_unfold. fold url.
    rewrite Hf, Hx.
    apply fetch_webpage_frame in Hf as [Ff Af].
    apply extract_comic_data_frame in Hx as [Fx Ax].
    rewrite Ax, Fx. done.
  - intros soup w1 d w2 w3 Hf Hx Hd. rewrite get_comic_unfold. fold url.
    rewrite Hf, Hx, Hd.
    apply fetch_webpage_frame in Hf as [Ff Af].
    apply extract_comic_data_frame in Hx as [Fx Ax].
    apply download_image_frame in Hd as [Fd Ad].
    assert (actions w3 =
            actions w ++ [Get url; Get (normalize_url (image_url d))]) as Ha.
    { rewrite Ad, Ax, Af. by rewrite <-app_assoc. }
    repeat split; [exact Ha | | congruence].
    rewrite !opened_actions, Ha, omap_app. simpl. by rewrite app_nil_r.
  - intros soup w1 d w2 img w3 w4 Hf Hx Hd Hi. rewrite get_comic_unfold.
    fold url. rewrite Hf, Hx, Hd, Hi. split; [done|].
    apply fetch_webpage_frame in Hf as [Ff Af].
    apply extract_comic_data_frame in Hx as [Fx Ax].
    apply download_image_frame in Hd as [Fd Ad].
    rewrite save_image_eq in Hi.
    pose proof (save_step_opened E (image_path_of d) WB (Binary img)
                  (lit "Error saving image to ") w3) as Ho.
    rewrite Hi in Ho. simpl in Ho. rewrite Ho. f_equal.
    rewrite !opened_actions, Ad, Ax, Af, !omap_app. simpl.
    by rewrite !app_nil_r.
  - intros soup w1 d w2 img w3 w4 w5 Hf Hx Hd Hi Ht.
    rewrite get_comic_unfold. fold url. by rewrite Hf, Hx, Hd, Hi, Ht.
  - intros soup w1 d w2 img w3 w4 w5 Hf Hx Hd Hi Ht.
    rewrite get_comic_unfold. fold url. rewrite Hf, Hx, Hd, Hi, Ht.
    split; [reflexivity|].
    apply fetch_webpage_frame in Hf as [Ff Af].
    apply extract_comic_data_frame in Hx as [Fx Ax].
    apply download_image_frame in Hd as [Fd Ad].
    rewrite save_image_eq in Hi. apply save_step_true in Hi as [Fi Ai].
    rewrite save_transcript_eq in Ht. apply save_step_true in Ht as [Ft At].
    split.
    + rewrite At, Ai, Ad, Ax, Af. by rewrite <-!app_assoc.
    + by rewrite Ft, Fi, Fd, Fx, Ff.
  - intros w' Hrun. by apply get_comic_true.
Qed.

(** At the site whose image answers 404, [get_comic] returns False and
    writes no file; at the site whose pages carry no comic, it returns
    False after the one request of the page; at the site that serves
    everything, it returns True after the six actions. *)
Lemma get_comic_short_circuit_witness :
  (fst (get_comic Demo.env_image_404 614 Demo.w0) = Ret false
   ∧ opened (snd (get_comic Demo.env_image_404 614 Demo.w0)) = []
   ∧ files (snd (get_comic Demo.env_image_404 614 Demo.w0)) = ∅)
  ∧ (fst (get_comic Demo.env_no_comic 614 Demo.w0) = Ret false
     ∧ actions (snd (get_comic Demo.env_no_comic 614 Demo.w0))
       = [Get (lit "https://xkcd.com/614")]
     ∧ files (snd (get_comic Demo.env_no_comic 614 Demo.w0)) = ∅)
  ∧ (fst (get_comic Demo.env_ok 614 Demo.w0) = Ret true
     ∧ actions (snd (get_comic Demo.env_ok 614 Demo.w0))
       = [Get (lit "https://xkcd.com/614");
          Get (lit "https://imgs.xkcd.com/comics/test.png");
          Open (lit "Test Comic.png") WB;
          Write (lit "Test Comic.png") (Binary Demo.png);
          Open (lit "Test Comic_transcript.txt") W;
          Write (lit "Test Comic_transcript.txt") (Text (lit "A test."))]).
Proof.
  split; [|split].
  - destruct (get_comic_short_circuit Demo.env_image_404 614 Demo.w0)
      as (_ & _ & Hdownload & _).
    destruct (Hdownload Demo.page
                (snd (fetch_webpage Demo.env_image_404
                        (XKCD_BASE_URL ++ str_of_int 614) Demo.w0))
                (ComicData Demo.image_src (lit "Test Comic") (lit "A test."))
                (snd (fetch_webpage Demo.env_image_404
                        (XKCD_BASE_URL ++ str_of_int 614) Demo.w0))
                (snd (get_comic Demo.env_image_404 614 Demo.w0)))
      as (Hrun & _ & Hopened & Hfiles);
      [vm_compute; reflexivity | vm_compute; reflexivity
      | vm_compute; reflexivity |].
    split; [by rewrite Hrun | split; [exact Hopened | exact Hfiles]].
  - destruct (get_comic_short_circuit Demo.env_no_comic 614 Demo.w0)
      as (_ & Hextract & _).
    destruct (Hextract Demo.empty_page
                (snd (fetch_webpage Demo.env_no_comic
                        (XKCD_BASE_URL ++ str_of_int 614) Demo.w0))
                (snd (get_comic Demo.env_no_comic 614 Demo.w0)))
      as (Hrun & Hactions & Hfiles);
      [vm_compute; reflexivity | vm_compute; reflexivity |].
    split; [by rewrite Hrun | split; [exact Hactions | exact Hfiles]].
  - destruct (get_comic_short_circuit Demo.env_ok 614 Demo.w0)
      as (_ & _ & _ & _ & _ & Hsuccess & _).
    set (w1 := snd (fetch_webpage Demo.env_ok
                      (XKCD_BASE_URL ++ str_of_int 614) Demo.w0)).
    set (w3 := snd (download_image Demo.env_ok Demo.image_src w1)).
    set (w4 := snd (save_image Demo.env_ok Demo.png (lit "Test Comic.png")
                      w3)).
    set (w5 := snd (save_transcript Demo.env_ok (lit "A test.")
                      (lit "Test Comic_transcript.txt") w4)).
    destruct (Hsuccess Demo.page w1
                (ComicData Demo.image_src (lit "Test Comic") (lit "A test."))
                w1 Demo.png w3 w4 w5)
      as (Hrun & Hactions & _);
      [vm_compute; reflexivity | vm_compute; reflexivity
      | vm_compute; reflexivity | vm_compute; reflexivity
      | vm_compute; reflexivity |].
    clearbody w1 w3 w4 w5. rewrite Hrun. cbn [fst snd].
    split; [reflexivity|]. rewrite actions_emit, Hactions.
    vm_compute. reflexivity.
Defined.

End scraper_claims.

Section scraper_claims_2.
Import Py Scraper.

(** The run of the specification's end-to-end test: two files, the image
    with the bytes served and the transcript. *)
Example get_comic_end_to_end :
  fst (get_comic Demo.env_ok 614 Demo.w0) = Ret true
  ∧ files (snd (get_comic Demo.env_ok 614 Demo.w0))
    = {[ lit "Test Comic.png" := Binary Demo.png;
         lit "Test Comic_transcript.txt" := Text (lit "A test.") ]}.
Proof. split; vm_compute; reflexivity. Qed.

(** C5. [download_image] requests exactly one URL: for an image URL that
    begins with two slashes, the URL with the scheme [https:] put in
    front, so that it begins with [https://]; for any other image URL,
    the URL itself. *)
Theorem download_image_normalizes_url (E : env) (image_url : str) (w : world) :
  let w' := snd (download_image E image_url w) in
  (∀ rest, image_url = lit "//" ++ rest →
     requested w' = requested w ++ [lit "https://" ++ rest])
  ∧ ((∀ rest, image_url ≠ lit "//" ++ rest) →
     requested w' = requested w ++ [image_url]).
Proof.
  intros w'.
  assert (requested w' = requested w ++ [normalize_url image_url]) as Hreq.
  { subst w'. destruct (download_image E image_url w) as [r w1] eqn:Hd.
    apply download_image_frame in Hd as [_ Ha]. simpl.
    rewrite !requested_actions, Ha, omap_app. reflexivity. }
  rewrite Hreq. unfold normalize_url. split.
  - intros rest ->.
    assert (startswith (lit "//" ++ rest) (lit "//") = true) as ->
      by (apply startswith_prefix; eauto).
    reflexivity.
  - intros Hno. destruct (startswith image_url (lit "//")) eqn:Hs; [|done].
    apply startswith_prefix in Hs as [rest ->]. by destruct (Hno rest).
Qed.

(** A protocol-relative URL and an absolute one. *)
Lemma download_image_normalizes_url_witness :
  requested (snd (download_image Demo.env_ok Demo.image_src Demo.w0))
    = [lit "https://imgs.xkcd.com/comics/test.png"]
  ∧ requested (snd (download_image Demo.env_ok
                      (lit "https://imgs.xkcd.com/comics/test.png") Demo.w0))
    = [lit "https://imgs.xkcd.com/comics/test.png"].
Proof.
  split.
  - apply (proj1 (download_image_normalizes_url Demo.env_ok Demo.image_src
                    Demo.w0) (lit "imgs.xkcd.com/comics/test.png")).
    reflexivity.
  - apply (proj2 (download_image_normalizes_url Demo.env_ok
                    (lit "https://imgs.xkcd.com/comics/test.png") Demo.w0)).
    intros rest. vm_compute. discriminate.
Defined.

(** C6, as stated, fails: a response whose status is 304 is not in the
    2xx range, and [fetch_webpage] parses and returns it. *)
Lemma fetch_webpage_non_2xx_counterexample :
  ¬ (∀ (E : env) (url : str) (w : world),
       (∃ e, net E w url = Raise e
             ∧ issubclass (exn_cls e) RequestException = true)
       ∨ (∃ r, net E w url = Ret r ∧ ¬ (200 <= status_code r < 300)) →
       ∃ msg,
         fetch_webpage E url w =
         (Ret None,
          emit (Print (lit "Error fetching " ++ url ++ lit ": " ++ msg))
               (emit (Get url) w))).
Proof.
  intros H.
  destruct (H Demo.env_304 XKCD_BASE_URL Demo.w0) as [msg Hmsg].
  - right. eexists. split; [reflexivity|]. simpl. lia.
  - vm_compute in Hmsg. discriminate Hmsg.
Qed.

(** C6, amended. When the request raises a requests.RequestException, or
    is answered with a status from 400 to 599, [fetch_webpage] prints one
    line naming the URL and the error, returns None, and raises
    nothing. *)
Theorem fetch_webpage_failure (E : env) (url : str) (w : world) :
  (∃ e, net E w url = Raise e
        ∧ issubclass (exn_cls e) RequestException = true)
  ∨ (∃ r, net E w url = Ret r ∧ 400 <= status_code r < 600) →
  ∃ msg,
    fetch_webpage E url w =
    (Ret None,
     emit (Print (lit "Error fetching " ++ url ++ lit ": " ++ msg))
          (emit (Get url) w))
    ∧ match net E w url with
      | Raise e => msg = exn_msg e
      | Ret r => IO.http_error_msg r = Some msg
      end.
Proof.
  rewrite fetch_webpage_eq, http_step_eq.
  intros [(e & -> & ->)|(r & -> & Hstatus)].
  - by exists (exn_msg e).
  - destruct (IO.http_error_msg r) as [msg|] eqn:Hmsg; [by exists msg|].
    apply http_error_msg_None in Hmsg. contradiction.
Qed.

(** A page answered with 404. *)
Lemma fetch_webpage_failure_witness :
  ∃ msg,
    fetch_webpage Demo.env_404 XKCD_BASE_URL Demo.w0 =
    (Ret None,
     emit (Print (lit "Error fetching " ++ XKCD_BASE_URL ++ lit ": " ++ msg))
          (emit (Get XKCD_BASE_URL) Demo.w0))
    ∧ msg = lit "404 Client Error: Not Found for url: https://xkcd.com/".
Proof.
  destruct (fetch_webpage_failure Demo.env_404 XKCD_BASE_URL Demo.w0)
    as [msg [Hrun Hmsg]].
  - right. eexists. split; [reflexivity|]. simpl. lia.
  - exists msg. split; [exact Hrun|].
    vm_compute in Hmsg. injection Hmsg as <-. reflexivity.
Defined.

(** Statuses outside 400..599 are not failures for [fetch_webpage]. *)
Lemma fetch_webpage_other_status (E : env) (url : str) (w : world) r :
  net E w url = Ret r → ¬ (400 <= status_code r < 600) →
  fetch_webpage E url w =
  (Ret (Some (html_parser E (text r))), emit (Get url) w).
Proof.
  intros Hnet Hstatus. rewrite fetch_webpage_eq, http_step_eq, Hnet.
  apply http_error_msg_None in Hstatus. by rewrite Hstatus.
Qed.

Lemma image_path_not_transcript_path (d : comic_data) :
  image_path_of d ≠ transcript_path_of d.
Proof.
  unfold image_path_of, transcript_path_of. intros H.
  apply app_inv_head in H. discriminate H.
Qed.

(** Any save opens its path and, at most, writes it. *)
Lemma save_step_actions (E : env) path m c prefix w :
  ∃ tl, actions (snd (save_step E path m c prefix w))
        = actions w ++ Open path m :: tl
        ∧ (tl = [] ∨ tl = [Write path c]).
Proof.
  rewrite save_step_eq. cbn zeta.
  destruct (open_fault E w path m) as [e|].
  - exists []. destruct (issubclass _ _); cbn [snd]; world_simpl; eauto.
  - destruct (write_fault E _ path c) as [[e rest]|].
    + exists [Write path c].
      destruct (issubclass _ _); cbn [snd]; world_simpl; eauto.
    + exists [Write path c]. cbn [snd]. world_simpl. eauto.
Qed.

(** A save changes no file but its own. *)
Lemma save_step_other_files (E : env) path m c prefix w p :
  p ≠ path →
  files (snd (save_step E path m c prefix w)) !! p = files w !! p.
Proof.
  intros Hp. rewrite save_step_eq. cbn zeta.
  destruct (open_fault E w path m) as [e|].
  - by destruct (issubclass _ _).
  - destruct (write_fault E _ path c) as [[e rest]|].
    + destruct (issubclass _ _); cbn [snd]; world_simpl;
        by rewrite !lookup_insert_ne.
    + cbn [snd]. world_simpl. by rewrite !lookup_insert_ne.
Qed.

(** What a run of [get_current_comic] does, by the record it extracts:
    without a record, the one request; with the record [d], the two
    requests and then, at most, the opening and the writing of the image
    file of [d], the only file that may change. *)
Lemma get_current_comic_effects (E : env) (w : world) :
  let run := get_current_comic E w in
  ((∀ soup w1 d w2,
      fetch_webpage E XKCD_BASE_URL w = (Ret (Some soup), w1) →
      extract_comic_data soup w1 ≠ (Ret (Some d), w2))
   ∧ actions (snd run) = actions w ++ [Get XKCD_BASE_URL]
   ∧ files (snd run) = files w)
  ∨ ∃ soup w1 d w2 tl,
      fetch_webpage E XKCD_BASE_URL w = (Ret (Some soup), w1)
      ∧ extract_comic_data soup w1 = (Ret (Some d), w2)
      ∧ actions (snd run) =
          actions w ++
          Get XKCD_BASE_URL :: Get (normalize_url (image_url d)) :: tl
      ∧ ((tl = [] ∧ files (snd run) = files w)
         ∨ ∃ img w3,
             download_image E (image_url d) w2 = (Ret (Some img), w3)
             ∧ (tl = [Open (image_path_of d) WB]
                ∨ tl = [Open (image_path_of d) WB;
                        Write (image_path_of d) (Binary img)]))
      ∧ ∀ p, p ≠ image_path_of d → files (snd run) !! p = files w !! p.
Proof.
  intros run. subst run. rewrite get_current_comic_unfold.
  destruct (fetch_webpage E _ w) as [r1 w1] eqn:Hf.
  apply fetch_webpage_frame in Hf as [Ff Af].
  destruct r1 as [[soup|]|e];
    [|left; split; [intros; discriminate | by split]
     |left; split; [intros; discriminate | by split]].
  destruct (extract_comic_data soup w1) as [r2 w2] eqn:Hx.
  apply extract_comic_data_frame in Hx as Hx'. destruct Hx' as [Fx Ax].
  rewrite Af in Ax. rewrite Ff in Fx.
  destruct r2 as [[d|]|e];
    [|left; split;
        [intros soup' w1' d' w2' [= <- <-]; rewrite Hx; discriminate
        |by split]
     |left; split;
        [intros soup' w1' d' w2' [= <- <-]; rewrite Hx; discriminate
        |by split]].
  right. exists soup, w1, d, w2.
  destruct (download_image E _ w2) as [r3 w3] eqn:Hd.
  apply download_image_frame in Hd as [Fd Ad].
  rewrite Ax, <-app_assoc in Ad. rewrite Fx in Fd. cbn [app] in Ad.
  destruct r3 as [[img|]|e];
    [|exists []; cbn [snd]; rewrite Fd;
      repeat split; try assumption; eauto
     |exists []; cbn [snd]; rewrite Fd;
      repeat split; try assumption; eauto].
  rewrite save_image_eq.
  destruct (save_step_actions E (image_path_of d) WB (Binary img)
              (lit "Error saving image to ") w3) as (tl & As & Htl).
  rewrite Ad, <-app_assoc in As. cbn [app] in As.
  pose proof (fun p Hp => save_step_other_files E (image_path_of d) WB
                (Binary img) (lit "Error saving image to ") w3 p Hp) as Fs.
  rewrite Fd in Fs.
  exists (Open (image_path_of d) WB :: tl).
  split; [reflexivity|]. split; [exact Hx|].
  assert (tl = [] ∧ False
          ∨ ∃ img0 w0, (Ret (Some img) : result (option bytes), w3)
                       = (Ret (Some img0), w0)
              ∧ (Open (image_path_of d) WB :: tl = [Open (image_path_of d) WB]
                 ∨ Open (image_path_of d) WB :: tl
                   = [Open (image_path_of d) WB;
                      Write (image_path_of d) (Binary img0)])) as Hshape.
  { right. exists img, w3. split; [reflexivity|].
    destruct Htl as [->| ->]; eauto. }
  destruct (save_step E _ _ _ _ w3) as [[[|]|e] w4]; cbn [snd] in *;
    (split; [world_simpl; exact As|]);
    (split; [right; destruct Hshape as [[_ []]|Hshape]; exact Hshape|]);
    intros p Hp; world_simpl; by apply Fs.
Qed.

(** The actions of [get_current_comic] are in binary mode. *)
Lemma binary_only_image_actions (d : comic_data) (tl : list event) :
  (tl = []
   ∨ tl = [Open (image_path_of d) WB]
   ∨ ∃ img, tl = [Open (image_path_of d) WB;
                  Write (image_path_of d) (Binary img)]) →
  Forall binary_only
    (Get XKCD_BASE_URL :: Get (normalize_url (image_url d)) :: tl).
Proof.
  intros Htl. repeat apply Forall_cons_2; try exact I.
  destruct Htl as [->|[->|[img ->]]];
    repeat apply Forall_cons_2; try exact I; apply Forall_nil_2.
Qed.

(** C7. [get_current_comic] goes through fetch, extract, download and
    save-image and never writes a transcript. In every run no file is
    opened or written in text mode. A run in which no record is extracted
    does the one request of the page and changes no file. A run in which
    the record [d] is extracted does the two requests and then at most
    opens and writes the image file of [d], in binary mode: every other
    file, the transcript file of [d] among them, is as it was. When the
    four steps succeed the run returns True, and a run that returns True
    has done the two requests and the writing of the image file
    [<sanitized title>.<extension>], the only file that differs
    afterwards. *)
Theorem get_current_comic_image_only (E : env) (w : world) :
  let run := get_current_comic E w in
  (∃ acts, actions (snd run) = actions w ++ acts ∧ Forall binary_only acts)
  ∧ ((∀ soup w1 d w2,
        fetch_webpage E XKCD_BASE_URL w = (Ret (Some soup), w1) →
        extract_comic_data soup w1 ≠ (Ret (Some d), w2)) →
     actions (snd run) = actions w ++ [Get XKCD_BASE_URL]
     ∧ files (snd run) = files w)
  ∧ (∀ soup w1 d w2,
       fetch_webpage E XKCD_BASE_URL w = (Ret (Some soup), w1) →
       extract_comic_data soup w1 = (Ret (Some d), w2) →
       (∃ tl,
          actions (snd run) =
            actions w ++
            Get XKCD_BASE_URL :: Get (normalize_url (image_url d)) :: tl
          ∧ ((tl = [] ∧ files (snd run) = files w)
             ∨ ∃ img w3,
                 download_image E (image_url d) w2 = (Ret (Some img), w3)
                 ∧ (tl = [Open (image_path_of d) WB]
                    ∨ tl = [Open (image_path_of d) WB;
                            Write (image_path_of d) (Binary img)])))
       ∧ (∀ p, p ≠ image_path_of d → files (snd run) !! p = files w !! p)
       ∧ files (snd run) !! transcript_path_of d
         = files w !! transcript_path_of d)
  ∧ (∀ soup w1 d w2 img w3 w4,
       fetch_webpage E XKCD_BASE_URL w = (Ret (Some soup), w1) →
       extract_comic_data soup w1 = (Ret (Some d), w2) →
       download_image E (image_url d) w2 = (Ret (Some img), w3) →
       save_image E img (image_path_of d) w3 = (Ret true, w4) →
       run = (Ret true,
              emit (Print (lit "Successfully downloaded current comic: "
                           ++ title d)) w4))
  ∧ (fst run = Ret true →
     ∃ soup d img w1 w2,
       fetch_webpage E XKCD_BASE_URL w = (Ret (Some soup), w1)
       ∧ extract_comic_data soup w1 = (Ret (Some d), w2)
       ∧ actions (snd run) =
           actions w ++
           [Get XKCD_BASE_URL; Get (normalize_url (image_url d));
            Open (image_path_of d) WB;
            Write (image_path_of d) (Binary img)]
       ∧ files (snd run) = <[image_path_of d := Binary img]> (files w)
       ∧ files (snd run) !! transcript_path_of d
         = files w !! transcript_path_of d).
Proof.
  intros run. pose proof (get_current_comic_effects E w) as Heff.
  cbn zeta in Heff. fold run in Heff.
  split; [|split; [|split; [|split]]].
  - destruct Heff as [(_ & Ha & _)|(soup & w1 & d & w2 & tl & _ & _ & Ha
                                     & Htl & _)].
    + exists [Get XKCD_BASE_URL]. split; [exact Ha|].
      apply Forall_cons_2; [exact I | apply Forall_nil_2].
    + eexists. split; [exact Ha|]. apply binary_only_image_actions.
      destruct Htl as [[-> _]|(img & w3 & _ & [->| ->])]; eauto.
  - intros Hno.
    destruct Heff as [(_ & Ha & Hfiles)|(soup & w1 & d & w2 & tl & Hf & Hx
                                          & _)]; [by split|].
    by destruct (Hno soup w1 d w2 Hf).
  - intros soup w1 d w2 Hf Hx.
    destruct Heff as [(Hno & _)|(soup' & w1' & d' & w2' & tl & Hf' & Hx'
                                  & Ha & Htl & Hother)];
      [by destruct (Hno soup w1 d w2 Hf)|].
    rewrite Hf in Hf'. injection Hf' as <- <-.
    rewrite Hx in Hx'. injection Hx' as <- <-.
    split; [by exists tl|]. split; [exact Hother|].
    apply Hother. intros Heq. symmetry in Heq.
    by apply image_path_not_transcript_path in Heq.
  - intros soup w1 d w2 img w3 w4 Hf Hx Hd Hi. subst run.
    rewrite get_current_comic_unfold. by rewrite Hf, Hx, Hd, Hi.
  - clear Heff. subst run. rewrite get_current_comic_unfold.
    destruct (fetch_webpage E _ w) as [[[soup|]|e] w1] eqn:Hf;
      try discriminate.
    destruct (extract_comic_data soup w1) as [[[d|]|e] w2] eqn:Hx;
      try discriminate.
    destruct (download_image E _ w2) as [[[img|]|e] w3] eqn:Hd;
      try discriminate.
    destruct (save_image E img _ w3) as [[[|]|e] w4] eqn:Hi;
      try discriminate.
    intros _. exists soup, d, img, w1, w2.
    apply fetch_webpage_frame in Hf as Hf'. destruct Hf' as [Ff Af].
    apply extract_comic_data_frame in Hx as Hx'. destruct Hx' as [Fx Ax].
    apply download_image_frame in Hd as [Fd Ad].
    rewrite save_image_eq in Hi. apply save_step_true in Hi as [Fi Ai].
    assert (files w4 = <[image_path_of d := Binary img]> (files w))
      as Hfiles by (by rewrite Fi, Fd, Fx, Ff).
    split; [reflexivity|]. split; [exact Hx|]. cbn [snd]. world_simpl.
    split; [|split; [exact Hfiles|]].
    + rewrite Ai, Ad, Ax, Af. by rewrite <-!app_assoc.
    + rewrite Hfiles. apply lookup_insert_ne, image_path_not_transcript_path.
Qed.

(** The run on the served site returns True, and the image file is the
    one file there is afterwards; the run on the site whose image is not
    found does the two requests and leaves no file. *)
Lemma get_current_comic_image_only_witness :
  (fst (get_current_comic Demo.env_ok Demo.w0) = Ret true
   ∧ files (snd (get_current_comic Demo.env_ok Demo.w0))
     = {[ lit "Test Comic.png" := Binary Demo.png ]})
  ∧ (actions (snd (get_current_comic Demo.env_image_404 Demo.w0))
     = [Get XKCD_BASE_URL; Get (lit "https://imgs.xkcd.com/comics/test.png")]
     ∧ files (snd (get_current_comic Demo.env_image_404 Demo.w0))
         !! lit "Test Comic_transcript.txt" = None).
Proof.
  split.
  - assert (fst (get_current_comic Demo.env_ok Demo.w0) = Ret true) as Htrue
      by (vm_compute; reflexivity).
    split; [exact Htrue|].
    destruct (proj2 (proj2 (proj2 (proj2
                (get_current_comic_image_only Demo.env_ok Demo.w0)))) Htrue)
      as (soup & d & img & w1 & w2 & Hf & Hx & Ha & Hfiles & _).
    vm_compute in Hf. injection Hf as <- <-.
    vm_compute in Hx. injection Hx as <- _.
    rewrite Hfiles. vm_compute in Ha.
    injection Ha as <-. reflexivity.
  - destruct (proj1 (proj2 (proj2
                (get_current_comic_image_only Demo.env_image_404 Demo.w0)))
                Demo.page
                (snd (fetch_webpage Demo.env_image_404 XKCD_BASE_URL Demo.w0))
                (ComicData Demo.image_src (lit "Test Comic") (lit "A test."))
                (snd (fetch_webpage Demo.env_image_404 XKCD_BASE_URL Demo.w0)))
      as ((tl & Ha & Htl) & _ & Htr);
      [vm_compute; reflexivity | vm_compute; reflexivity |].
    split; [|exact Htr].
    destruct Htl as [[-> _]|(img & w3 & Hd & _)]; [exact Ha|].
    vm_compute in Hd. discriminate Hd.
Defined.

End scraper_claims_2.

(* ===================================================================== *)
(** * File names *)
(* ===================================================================== *)

(** Decidable facts about concrete values, by evaluation. *)
Ltac decide_by_compute :=
  refine (bool_decide_unpack _ _); vm_compute; exact I.

Section file_names.
Import Py Scraper.

(** The denylist as code points. *)
Example INVALID_FILENAME_CHARS_codes :
  INVALID_FILENAME_CHARS = [47; 92; 63; 37; 42; 58; 124; 34; 60; 62; 46]%N.
Proof. reflexivity. Qed.

Lemma sanitize_filename_not_in (s : str) (c : char) :
  c ∈ INVALID_FILENAME_CHARS → c ∉ sanitize_filename s.
Proof.
  intros Hc Hin. unfold sanitize_filename in Hin.
  apply list_elem_of_In, filter_In in Hin as [_ Hkeep].
  apply contains_elem_of in Hc. by rewrite Hc in Hkeep.
Qed.

(** C2. [sanitize_filename] returns a string with none of the denylisted
    characters; it returns its input when the input has none of them; and
    what it returns is the input with characters struck out, the others
    kept in their order: a subsequence of the input, and the longest one
    free of denylisted characters. *)
Theorem sanitize_filename_strips (s : str) :
  (∀ c, c ∈ INVALID_FILENAME_CHARS → c ∉ sanitize_filename s)
  ∧ ((∀ c, c ∈ INVALID_FILENAME_CHARS → c ∉ s) → sanitize_filename s = s)
  ∧ sublist (sanitize_filename s) s
  ∧ (∀ t, sublist t s → (∀ c, c ∈ INVALID_FILENAME_CHARS → c ∉ t) →
          sublist t (sanitize_filename s)).
Proof.
  split; [intros c; apply sanitize_filename_not_in|].
  split; [|split].
  - intros Hclean. apply filter_all_true. intros c Hc.
    apply negb_true_iff, not_true_iff_false. rewrite contains_elem_of.
    intros Hbad. by apply (Hclean c).
  - apply filter_sublist.
  - intros t Hsub Hclean.
    assert (sanitize_filename t = t) as <-.
    { apply filter_all_true. intros c Hc.
      apply negb_true_iff, not_true_iff_false. rewrite contains_elem_of.
      intros Hbad. by apply (Hclean c). }
    by apply sublist_filter_mono.
Qed.

(** A title with denylisted characters, and one without. *)
Lemma sanitize_filename_strips_witness :
  sanitize_filename (lit "What if? 2: a/b <c>.") = lit "What if 2 ab c"
  ∧ sanitize_filename (lit "Test Comic") = lit "Test Comic".
Proof.
  split; [vm_compute; reflexivity|].
  apply (proj1 (proj2 (sanitize_filename_strips (lit "Test Comic")))).
  apply Forall_forall. decide_by_compute.
Defined.

(** The index -1 of the split is in range. *)
Lemma get_file_extension_last (url : str) :
  item_neg1 (split (chr ".") url) = Some (get_file_extension url).
Proof.
  unfold get_file_extension.
  destruct (split_last_some (chr ".") url) as [seg ->]. reflexivity.
Qed.

Lemma get_file_extension_no_dot (url : str) :
  chr "." ∉ get_file_extension url.
Proof.
  pose proof (get_file_extension_last url) as Hlast.
  pose proof (split_segments_no_sep (chr ".") url) as Hall.
  rewrite Forall_forall in Hall. apply Hall.
  unfold item_neg1 in Hlast. by apply last_Some_elem_of in Hlast.
Qed.

(** C4. [get_file_extension] returns what follows the last dot of the
    URL, whatever that is; for a URL without a dot this is the whole
    URL. The index -1 is always in range. *)
Theorem get_file_extension_after_last_dot (url : str) :
  item_neg1 (split (chr ".") url) = Some (get_file_extension url)
  ∧ (∀ a b, url = a ++ chr "." :: b → chr "." ∉ b →
            get_file_extension url = b)
  ∧ (chr "." ∉ url → get_file_extension url = url).
Proof.
  split; [apply get_file_extension_last|]. unfold get_file_extension. split.
  - intros a b -> Hb. by rewrite split_last_after_sep.
  - intros Hno. by rewrite split_no_sep.
Qed.

(** The extension of an image URL, and a URL without a dot. *)
Lemma get_file_extension_after_last_dot_witness :
  get_file_extension (lit "//imgs.xkcd.com/comics/test.png") = lit "png"
  ∧ get_file_extension (lit "https://localhost/comic") = lit "https://localhost/comic".
Proof.
  split.
  - apply (proj1 (proj2 (get_file_extension_after_last_dot
                           (lit "//imgs.xkcd.com/comics/test.png")))
             (lit "//imgs.xkcd.com/comics/test")).
    + reflexivity.
    + decide_by_compute.
  - apply (proj2 (proj2 (get_file_extension_after_last_dot
                           (lit "https://localhost/comic")))).
    decide_by_compute.
Defined.

(** The name of a path that ends with a slash-free component. *)
Lemma path_name_join (dir f : str) :
  chr "/" ∉ f → f ≠ [] → f ≠ [chr "."] →
  path_name (path_join dir f) = f.
Proof.
  intros Hslash Hne Hdot.
  assert (∀ l, last (List.filter
                       (fun x => negb (bool_decide (x = []))
                                 && negb (bool_decide (x = [chr "."]))) (l ++ [f]))
               = Some f) as Hkeep.
  { intros l. rewrite List.filter_app. simpl.
    rewrite (bool_decide_eq_false_2 _ Hne), (bool_decide_eq_false_2 _ Hdot).
    simpl. apply last_snoc. }
  assert (∀ pre, path_name (pre ++ chr "/" :: f) = f) as Hpre.
  { intros pre. unfold path_name.
    by rewrite split_app_sep, (split_no_sep _ f Hslash), Hkeep. }
  unfold path_join.
  assert (startswith f (lit "/") = false) as ->.
  { apply not_true_is_false. rewrite startswith_prefix. intros [rest ->].
    apply Hslash. left. }
  destruct (last dir) as [c|] eqn:Hlast.
  - destruct (N.eqb c (chr "/")) eqn:Hc.
    + apply N.eqb_eq in Hc as ->. apply last_Some in Hlast as [pre ->].
      rewrite <-app_assoc. apply Hpre.
    + apply Hpre.
  - unfold path_name. rewrite (split_no_sep _ f Hslash).
    change [f] with ([] ++ [f]). by rewrite Hkeep.
Qed.

(** C10, as stated, fails: a title made of denylisted characters only
    gives a file name that begins with its dot, and the stem of such a
    name is the whole name. *)
Lemma title_round_trip_counterexample :
  ¬ (∀ (d : comic_data) (dir : str),
       count (chr ".") (image_path_of d) = 1%nat
       ∧ path_stem (path_join dir (image_path_of d))
         = sanitize_filename (title d)).
Proof.
  intros H.
  destruct (H (ComicData Demo.image_src (lit "?") [])
              (lit "/repo/data/2024-01-20")) as [_ Hstem].
  vm_compute in Hstem. discriminate Hstem.
Qed.

(** C10, amended. The image file name has exactly one dot, for every
    title and image URL; and when the sanitized title is not empty and
    the extension is neither empty nor contains a slash, the stem of the
    file's path, in any directory, is the sanitized title. *)
Theorem title_round_trip (d : comic_data) (dir : str) :
  count (chr ".") (image_path_of d) = 1%nat
  ∧ (sanitize_filename (title d) ≠ [] →
     get_file_extension (image_url d) ≠ [] →
     chr "/" ∉ get_file_extension (image_url d) →
     path_stem (path_join dir (image_path_of d))
     = sanitize_filename (title d)).
Proof.
  unfold image_path_of.
  set (san := sanitize_filename (title d)).
  set (ext := get_file_extension (image_url d)).
  assert (chr "." ∉ san) as Hsan_dot.
  { apply sanitize_filename_not_in. apply contains_elem_of. reflexivity. }
  assert (chr "/" ∉ san) as Hsan_slash.
  { apply sanitize_filename_not_in. apply contains_elem_of. reflexivity. }
  pose proof (get_file_extension_no_dot (image_url d)) as Hext_dot.
  fold ext in Hext_dot.
  change (lit "." ++ ext) with (chr "." :: ext).
  split.
  - rewrite count_app, (count_not_in _ san Hsan_dot).
    change (chr "." :: ext) with ([chr "."] ++ ext).
    by rewrite count_app, (count_not_in _ ext Hext_dot).
  - intros Hsan Hext Hslash. unfold path_stem.
    rewrite path_name_join.
    + rewrite (rfind_last _ san ext Hext_dot).
      rewrite bool_decide_eq_true_2; [apply take_app_length|].
      rewrite length_app. simpl.
      destruct san; [done|]. destruct ext; [done|]. simpl. lia.
    + rewrite elem_of_app, elem_of_cons. intros [?|[Heq|?]]; try done.
    + by destruct san.
    + destruct san as [|? [|]]; done.
Qed.

(** The two conditions on the extension are needed as well: a URL that
    ends with a dot gives a name that ends with its dot, whose stem is
    the whole name; and an extension with a slash moves the name into
    another directory. *)
Example title_round_trip_empty_extension :
  path_stem (path_join (lit "/repo/data/2024-01-20")
               (image_path_of (ComicData (lit "//imgs.xkcd.com/t.") (lit "T") [])))
  = lit "T.".
Proof. vm_compute. reflexivity. Qed.

Example title_round_trip_slash_in_extension :
  path_stem (path_join (lit "/repo/data/2024-01-20")
               (image_path_of (ComicData (lit "https://xkcd.com/comic") (lit "T") [])))
  = lit "comic".
Proof. vm_compute. reflexivity. Qed.

(** The file of the comic page, found again in its daily directory. *)
Lemma title_round_trip_witness :
  path_stem (path_join (lit "/repo/data/2024-01-20")
               (image_path_of
                  (ComicData Demo.image_src (lit "Test Comic") [])))
  = lit "Test Comic".
Proof.
  apply (proj2 (title_round_trip
                  (ComicData Demo.image_src (lit "Test Comic") [])
                  (lit "/repo/data/2024-01-20"))).
  - vm_compute. discriminate.
  - vm_compute. discriminate.
  - decide_by_compute.
Defined.

End file_names.

(* ===================================================================== *)
(** * The README updater *)
(* ===================================================================== *)

Section update_readme.
Import Py UpdateReadme.

(** What [get_most_recent_comic] returns, by cases. *)
Lemma get_most_recent_comic_eq (E : env) (w : world) :
  get_most_recent_comic E w =
  if negb (path_exists E (data_dir E)) then
    (Ret None,
     emit (Print (lit "Data directory not found: " ++ data_dir E)) w)
  else
    match listdir E (data_dir E) with
    | Raise e => (Raise e, w)
    | Ret names =>
        match date_dirs E names with
        | [] =>
            (Ret None,
             emit (Print (lit "No date directories found in data folder")) w)
        | most_recent_date :: _ =>
            let most_recent_dir := path_join (data_dir E) most_recent_date in
            match glob E (path_join most_recent_dir (lit "*.png")) with
            | [] =>
                (Ret None,
                 emit (Print (lit "No PNG files found in " ++ most_recent_dir))
                      w)
            | image_path :: _ =>
                (Ret (Some (most_recent_date, path_stem image_path,
                            replace (chr " ") (lit "%20")
                              (relpath E image_path (project_root E)))),
                 w)
            end
        end
    end.
Proof.
  unfold get_most_recent_comic.
  destruct (negb (path_exists E (data_dir E))); [reflexivity|].
  run_m. destruct (listdir E (data_dir E)) as [names|e]; [|reflexivity].
  destruct (date_dirs E names) as [|d rest]; [reflexivity|].
  destruct (glob E _); reflexivity.
Qed.



(** C8. When the data directory is missing, or holds no subdirectory, or
    the most recent date directory has no match for [*.png],
    [update_readme] prints its messages and opens no file: the files,
    README.md among them, are as before. *)
Theorem update_readme_nothing_to_show (E : env) (w : world) :
  path_exists E (data_dir E) = false
  ∨ (path_exists E (data_dir E) = true
     ∧ ∃ names, listdir E (data_dir E) = Ret names
         ∧ (subdirs E names = []
            ∨ ∃ d rest, date_dirs E names = d :: rest
                ∧ glob E (path_join (path_join (data_dir E) d) (lit "*.png"))
                  = [])) →
  ∃ line w',
    update_readme E w = (Ret tt, w')
    ∧ printed w' = printed w ++ [line; lit "No comic found to update README"]
    ∧ actions w' = actions w
    ∧ files w' = files w.
Proof.
  intros Hcase. unfold update_readme, bind.
  rewrite get_most_recent_comic_eq. cbn zeta.
  destruct Hcase as [->|(-> & names & -> & [Hnone|(d & rest & -> & ->)])];
    cbn [negb].
  - eexists _, _. run_m. split; [reflexivity|]. world_simpl. done.
  - unfold date_dirs. fold (subdirs E names). rewrite Hnone.
    eexists _, _. run_m. split; [reflexivity|]. world_simpl. done.
  - eexists _, _. run_m. split; [reflexivity|]. world_simpl. done.
Qed.

(** Three date directories and no image in the most recent one. *)
Lemma update_readme_nothing_to_show_witness :
  ∃ line w',
    update_readme (Demo.env_three_dates []) Demo.w0 = (Ret tt, w')
    ∧ printed w' = [line; lit "No comic found to update README"]
    ∧ actions w' = []
    ∧ files w' = ∅.
Proof.
  apply (update_readme_nothing_to_show (Demo.env_three_dates []) Demo.w0).
  right. split; [reflexivity|]. eexists. split; [reflexivity|].
  right. eexists _, _. split; vm_compute; reflexivity.
Defined.

End update_readme.

(* ===================================================================== *)
(** * The display script *)
(* ===================================================================== *)

Section what_xkcd.
Import Py WhatXkcd.

Lemma xkdc_scraper_not_global (E : env) :
  lookup_name (lit "xkdc_scraper") (module_globals E) = None.
Proof. vm_compute. reflexivity. Qed.

(** C9. Every run of the block under [if __name__ == '__main__'] raises
    a NameError at its first statement, where [xkdc_scraper] is read: the
    module is bound to the name [scraper], and [xkdc_scraper] is bound
    neither in the module nor in the builtins. So does every run of the
    script whose imports succeed; and every run of the script ends with an
    exception and leaves the world as it was: no comic is fetched or
    chosen, nothing is resized, quantized or shown. *)
Theorem main_block_name_error (E : env) (w : world) :
  lit "xkdc_scraper" ∉ builtins E →
  lookup_name (lit "scraper") (module_globals E)
    = Some (PyModule (lit "scraper"))
  ∧ main_block E w =
      (Raise (Exn NameError (lit "name 'xkdc_scraper' is not defined")), w)
  ∧ ((∀ module, import_fault E module = None) →
     script E w =
       (Raise (Exn NameError (lit "name 'xkdc_scraper' is not defined")), w))
  ∧ (∃ e, script E w = (Raise e, w))
  ∧ device_ops (snd (script E w)) = device_ops w.
Proof.
  intros Hbuiltin.
  assert (main_block E w =
          (Raise (Exn NameError (lit "name 'xkdc_scraper' is not defined")),
           w)) as Hrun.
  { unfold main_block, bind, load_name.
    rewrite xkdc_scraper_not_global.
    by rewrite (bool_decide_eq_false_2 _ Hbuiltin). }
  assert (∃ e, script E w = (Raise e, w)) as [e Hscript].
  { unfold script, bind, import_module.
    repeat (destruct (import_fault E _); [by eauto|]).
    rewrite Hrun. eauto. }
  split; [vm_compute; reflexivity|]. split; [exact Hrun|].
  split; [|split; [by eauto | by rewrite Hscript]].
  intros Himports. unfold script, bind, import_module.
  rewrite !Himports. exact Hrun.
Qed.

(** A run with the builtins the script uses. *)
Lemma main_block_name_error_witness :
  fst (script Demo.env_ok Demo.w0)
    = Raise (Exn NameError (lit "name 'xkdc_scraper' is not defined"))
  ∧ trace (snd (script Demo.env_ok Demo.w0)) = [].
Proof.
  destruct (main_block_name_error Demo.env_ok Demo.w0)
    as (_ & _ & Hscript & _).
  - decide_by_compute.
  - rewrite Hscript; [by split | reflexivity].
Defined.

End what_xkcd.

(* ===================================================================== *)
(** * More on the steps of the scraper *)
(* ===================================================================== *)

Section more_steps.
Import Py Scraper.

(** A lookup that fails rules out every record. *)
Ltac no_comic :=
  let d := fresh "d" in
  intros d (?c & ?n & ?a & ?k & ?t & ?r
            & ?G1 & ?G2 & ?G3 & ?G4 & ?G5 & ?G6 & ?G7);
  congruence.

(** The lookups of [extract_comic_data] all succeed, or one of them
    fails and its exception is caught. *)
Lemma extract_comic_data_by_cases (soup : node) (w : world) :
  (∃ d, has_comic soup d
        ∧ extract_comic_data soup w = (Ret (Some d), w))
  ∨ ((∀ d, ¬ has_comic soup d)
     ∧ ∃ msg, extract_comic_data soup w =
              (Ret None,
               emit (Print (lit "Error extracting comic data: " ++ msg)) w)).
Proof.
  unfold extract_comic_data, call_find, getitem, call_get_text. run_m.
  destruct (Soup.find (Soup.by_id (lit "comic")) soup) as [comic|] eqn:Hc;
    run_m; [|right; split; [no_comic | eauto]].
  destruct (Soup.find (Soup.by_name (lit "img")) comic) as [[n a c|s]|]
    eqn:Hi; run_m;
    [| right; split; [no_comic | eauto] | right; split; [no_comic | eauto]].
  destruct (Soup.attr (lit "src") a) as [src|] eqn:Hs; run_m;
    [|right; split; [no_comic | eauto]].
  destruct (Soup.find (Soup.by_id (lit "ctitle")) soup) as [t|] eqn:Ht;
    run_m; [|right; split; [no_comic | eauto]].
  destruct (Soup.find (Soup.by_id (lit "transcript")) soup) as [tr|]
    eqn:Hr; run_m; [|right; split; [no_comic | eauto]].
  left. eexists. split; [|reflexivity].
  exists comic, n, a, c, t, tr. simpl. done.
Qed.

(** A document has at most one record. *)
Lemma has_comic_functional (soup : node) (d d' : comic_data) :
  has_comic soup d → has_comic soup d' → d = d'.
Proof.
  destruct d as [u1 t1 r1], d' as [u2 t2 r2].
  intros (c1 & n1 & a1 & k1 & x1 & y1 & H1 & H2 & H3 & H4 & H5 & H6 & H7)
         (c2 & n2 & a2 & k2 & x2 & y2 & G1 & G2 & G3 & G4 & G5 & G6 & G7).
  simpl in *. congruence.
Qed.

Lemma extract_comic_data_has_comic (soup : node) (d : comic_data) (w : world) :
  has_comic soup d → extract_comic_data soup w = (Ret (Some d), w).
Proof.
  intros Hd.
  destruct (extract_comic_data_by_cases soup w)
    as [(d' & Hd' & Hrun)|[Hno _]].
  - by rewrite (has_comic_functional soup d d' Hd Hd').
  - by destruct (Hno d).
Qed.

(** X1. [extract_comic_data] is all or nothing and raises nothing: when
    the document has the three elements it returns their values and leaves
    the world as it was; when it has not, it returns None after printing
    one line that begins with "Error extracting comic data: ". *)
Theorem extract_comic_data_all_or_nothing (soup : node) (w : world) :
  (∀ d, has_comic soup d → extract_comic_data soup w = (Ret (Some d), w))
  ∧ ((∀ d, ¬ has_comic soup d) →
     ∃ msg, extract_comic_data soup w =
            (Ret None,
             emit (Print (lit "Error extracting comic data: " ++ msg)) w))
  ∧ (∀ d w', extract_comic_data soup w = (Ret (Some d), w') →
       has_comic soup d ∧ w' = w)
  ∧ (∀ e w', extract_comic_data soup w ≠ (Raise e, w')).
Proof.
  pose proof (extract_comic_data_by_cases soup w) as Hcases.
  split; [|split; [|split]].
  - intros d Hd. by apply extract_comic_data_has_comic.
  - intros Hno. destruct Hcases as [(d & Hd & _)|[_ Hmsg]]; [|done].
    by destruct (Hno d).
  - intros d w' Hrun. destruct Hcases as [(d' & Hd' & Hrun')|[_ [msg Hmsg]]].
    + rewrite Hrun' in Hrun. by injection Hrun as <- <-.
    + rewrite Hmsg in Hrun. discriminate.
  - intros e w' Hrun. destruct Hcases as [(d & _ & Hrun')|[_ [msg Hmsg]]].
    + rewrite Hrun' in Hrun. discriminate.
    + rewrite Hmsg in Hrun. discriminate.
Qed.

(** The comic page and the page without a comic. *)
Lemma extract_comic_data_all_or_nothing_witness :
  extract_comic_data Demo.page Demo.w0
    = (Ret (Some (ComicData Demo.image_src (lit "Test Comic")
                    (lit "A test."))), Demo.w0)
  ∧ ∃ msg, extract_comic_data Demo.empty_page Demo.w0 =
           (Ret None,
            emit (Print (lit "Error extracting comic data: " ++ msg)) Demo.w0).
Proof.
  split.
  - apply (extract_comic_data_all_or_nothing Demo.page Demo.w0).
    eexists _, _, _, _, _, _. vm_compute. repeat split; reflexivity.
  - apply (extract_comic_data_all_or_nothing Demo.empty_page Demo.w0).
    intros d (c & n & a & k & t & r & Hc & _). vm_compute in Hc.
    discriminate Hc.
Defined.

(** X2. [fetch_webpage] returns the parsed body, with nothing printed,
    when the response has a status outside 400..599; an exception of the
    request that is not a requests.RequestException reaches the caller, and
    nothing is printed then either. No outcome touches a file. *)
Theorem fetch_webpage_success_and_propagation (E : env) (url : str) (w : world) :
  (∀ r, net E w url = Ret r → ¬ (400 <= status_code r < 600) →
     fetch_webpage E url w =
     (Ret (Some (html_parser E (text r))), emit (Get url) w))
  ∧ (∀ e, net E w url = Raise e →
       issubclass (exn_cls e) RequestException = false →
       fetch_webpage E url w = (Raise e, emit (Get url) w))
  ∧ files (snd (fetch_webpage E url w)) = files w.
Proof.
  rewrite fetch_webpage_eq, http_step_eq. split; [|split].
  - intros r -> Hstatus. apply http_error_msg_None in Hstatus.
    by rewrite Hstatus.
  - by intros e -> ->.
  - destruct (net E w url) as [r|e].
    + by destruct (IO.http_error_msg r).
    + by destruct (issubclass _ _).
Qed.

(** A page that is served. *)
Lemma fetch_webpage_success_and_propagation_witness :
  fetch_webpage Demo.env_ok XKCD_BASE_URL Demo.w0 =
  (Ret (Some Demo.page), emit (Get XKCD_BASE_URL) Demo.w0).
Proof.
  apply (proj1 (fetch_webpage_success_and_propagation Demo.env_ok
                  XKCD_BASE_URL Demo.w0)
           (Demo.served XKCD_BASE_URL (lit "comic"))).
  - reflexivity.
  - simpl. lia.
Defined.

(** X3. [download_image], on the URL it requests: a
    requests.RequestException or a status from 400 to 599 gives None and
    one printed line naming that URL and the error, which is the text of
    the exception raised by the request or the message that
    [raise_for_status] builds from the response; any other status gives
    the bytes of the response, with nothing printed; any other exception
    reaches the caller. No outcome touches a file. *)
Theorem download_image_outcomes (E : env) (image_url : str) (w : world) :
  let url := normalize_url image_url in
  let run := download_image E image_url w in
  ((∃ e, net E w url = Raise e
         ∧ issubclass (exn_cls e) RequestException = true)
   ∨ (∃ r, net E w url = Ret r ∧ 400 <= status_code r < 600) →
   ∃ msg, run =
          (Ret None,
           emit (Print (lit "Error downloading image from " ++ url
                        ++ lit ": " ++ msg))
                (emit (Get url) w))
          ∧ match net E w url with
            | Raise e => msg = exn_msg e
            | Ret r => IO.http_error_msg r = Some msg
            end)
  ∧ (∀ r, net E w url = Ret r → ¬ (400 <= status_code r < 600) →
       run = (Ret (Some (content_of r)), emit (Get url) w))
  ∧ (∀ e, net E w url = Raise e →
       issubclass (exn_cls e) RequestException = false →
       run = (Raise e, emit (Get url) w))
  ∧ files (snd run) = files w.
Proof.
  intros url run. subst run. rewrite download_image_eq, http_step_eq.
  fold url. split; [|split; [|split]].
  - intros [(e & -> & ->)|(r & -> & Hstatus)]; [by exists (exn_msg e)|].
    destruct (IO.http_error_msg r) as [msg|] eqn:Hmsg; [by exists msg|].
    apply http_error_msg_None in Hmsg. contradiction.
  - intros r -> Hstatus. apply http_error_msg_None in Hstatus.
    by rewrite Hstatus.
  - by intros e -> ->.
  - destruct (net E w url) as [r|e].
    + by destruct (IO.http_error_msg r).
    + by destruct (issubclass _ _).
Qed.

(** The image that is not found, and the image that is served. *)
Lemma download_image_outcomes_witness :
  download_image Demo.env_image_404 Demo.image_src Demo.w0 =
    (Ret None,
     emit (Print (lit "Error downloading image from "
                  ++ lit "https://imgs.xkcd.com/comics/test.png"
                  ++ lit ": "
                  ++ lit "404 Client Error: Not Found for url: "
                  ++ lit "https://imgs.xkcd.com/comics/test.png"))
          (emit (Get (lit "https://imgs.xkcd.com/comics/test.png"))
                Demo.w0))
  ∧ fst (download_image Demo.env_ok Demo.image_src Demo.w0)
    = Ret (Some Demo.png).
Proof.
  split.
  - destruct (proj1 (download_image_outcomes Demo.env_image_404
                       Demo.image_src Demo.w0)) as (msg & Hrun & Hmsg).
    + right. eexists. split; [reflexivity|]. simpl. lia.
    + vm_compute in Hmsg. injection Hmsg as <-. rewrite Hrun.
      vm_compute. reflexivity.
  - rewrite (proj1 (proj2 (download_image_outcomes Demo.env_ok
                             Demo.image_src Demo.w0))
               (Demo.served (lit "https://imgs.xkcd.com/comics/test.png")
                            (lit "comic"))).
    + reflexivity.
    + reflexivity.
    + simpl. lia.
Defined.

(** The outcomes of a save, by the faults of the open and of the write. *)
Lemma save_step_outcomes (E : env) path m c prefix w :
  let run := save_step E path m c prefix w in
  let opened_w := put_file path (empty_file m) (emit (Open path m) w) in
  (open_fault E w path m = None → write_fault E opened_w path c = None →
     fst run = Ret true
     ∧ files (snd run) = <[path := c]> (files w)
     ∧ printed (snd run) = printed w)
  ∧ (∀ e, open_fault E w path m = Some e →
       issubclass (exn_cls e) OSError = true →
       fst run = Ret false
       ∧ files (snd run) = files w
       ∧ printed (snd run)
         = printed w ++ [prefix ++ path ++ lit ": " ++ exn_msg e])
  ∧ (∀ e rest, open_fault E w path m = None →
       write_fault E opened_w path c = Some (e, rest) →
       issubclass (exn_cls e) OSError = true →
       fst run = Ret false
       ∧ files (snd run) = <[path := rest]> (files w)
       ∧ printed (snd run)
         = printed w ++ [prefix ++ path ++ lit ": " ++ exn_msg e])
  ∧ (∀ e, open_fault E w path m = Some e
          ∨ (open_fault E w path m = None
             ∧ ∃ rest, write_fault E opened_w path c = Some (e, rest)) →
       issubclass (exn_cls e) OSError = false →
       fst run = Raise e ∧ printed (snd run) = printed w).
Proof.
  intros run opened_w. subst run opened_w. rewrite save_step_eq. cbn zeta.
  split; [|split; [|split]].
  - intros -> ->. cbn [fst snd]. world_simpl.
    by rewrite insert_insert_eq.
  - intros e -> ->. cbn [fst snd]. by world_simpl.
  - intros e rest -> -> ->. cbn [fst snd]. world_simpl.
    by rewrite insert_insert_eq.
  - intros e [->|[-> [rest ->]]] ->; cbn [fst snd]; by world_simpl.
Qed.

(** X4. [save_image] returns True after an open and a write without
    fault, and the file then holds the image data; an IOError of the open
    gives False, one printed line and no change to the files; an IOError
    of the write gives False and one printed line, and the file holds
    what the failed write left in it, its former content being lost; an
    exception that is no IOError reaches the caller. Other files are
    never changed. *)
Theorem save_image_outcomes (E : env) (image_data : bytes) (filepath : str)
        (w : world) :
  let run := save_image E image_data filepath w in
  let opened_w := put_file filepath (Binary []) (emit (Open filepath WB) w) in
  (open_fault E w filepath WB = None →
   write_fault E opened_w filepath (Binary image_data) = None →
     fst run = Ret true
     ∧ files (snd run) = <[filepath := Binary image_data]> (files w)
     ∧ printed (snd run) = printed w)
  ∧ (∀ e, open_fault E w filepath WB = Some e →
       issubclass (exn_cls e) OSError = true →
       fst run = Ret false
       ∧ files (snd run) = files w
       ∧ printed (snd run)
         = printed w ++ [lit "Error saving image to " ++ filepath
                         ++ lit ": " ++ exn_msg e])
  ∧ (∀ e rest, open_fault E w filepath WB = None →
       write_fault E opened_w filepath (Binary image_data) = Some (e, rest) →
       issubclass (exn_cls e) OSError = true →
       fst run = Ret false
       ∧ files (snd run) = <[filepath := rest]> (files w)
       ∧ printed (snd run)
         = printed w ++ [lit "Error saving image to " ++ filepath
                         ++ lit ": " ++ exn_msg e])
  ∧ (∀ e, open_fault E w filepath WB = Some e
          ∨ (open_fault E w filepath WB = None
             ∧ ∃ rest, write_fault E opened_w filepath (Binary image_data)
                       = Some (e, rest)) →
       issubclass (exn_cls e) OSError = false →
       fst run = Raise e ∧ printed (snd run) = printed w)
  ∧ (∀ p, p ≠ filepath → files (snd run) !! p = files w !! p).
Proof.
  intros run opened_w. subst run opened_w. rewrite save_image_eq.
  pose proof (save_step_outcomes E filepath WB (Binary image_data)
                (lit "Error saving image to ") w) as (H1 & H2 & H3 & H4).
  repeat split; try (by apply H1); try (by eapply H2); try (by eapply H3);
    try (by eapply H4).
  intros p Hp. by apply save_step_other_files.
Qed.

(** A save that goes through, one on a read-only directory, and one on
    a full disk, which leaves the first byte in the file. *)
Lemma save_image_outcomes_witness :
  (fst (save_image Demo.env_ok Demo.png (lit "a.png") Demo.w0) = Ret true
   ∧ files (snd (save_image Demo.env_ok Demo.png (lit "a.png") Demo.w0))
     = {[ lit "a.png" := Binary Demo.png ]})
  ∧ (fst (save_image Demo.env_read_only Demo.png (lit "a.png") Demo.w0)
     = Ret false
     ∧ files (snd (save_image Demo.env_read_only Demo.png (lit "a.png")
                     Demo.w0)) = ∅)
  ∧ (fst (save_image Demo.env_disk_full Demo.png (lit "a.png") Demo.w0)
     = Ret false
     ∧ files (snd (save_image Demo.env_disk_full Demo.png (lit "a.png")
                     Demo.w0))
       = {[ lit "a.png" := Binary [137%N] ]}).
Proof.
  split; [|split].
  - destruct (proj1 (save_image_outcomes Demo.env_ok Demo.png (lit "a.png")
                       Demo.w0)) as (Hr & Hf & _);
      [reflexivity | reflexivity |].
    split; [exact Hr | rewrite Hf; reflexivity].
  - destruct (proj1 (proj2 (save_image_outcomes Demo.env_read_only Demo.png
                              (lit "a.png") Demo.w0))
                (Exn OSError (lit "Permission denied")))
      as (Hr & Hf & _); [reflexivity | reflexivity |].
    split; [exact Hr | exact Hf].
  - destruct (proj1 (proj2 (proj2 (save_image_outcomes Demo.env_disk_full
                                     Demo.png (lit "a.png") Demo.w0)))
                (Exn OSError (lit "No space left on device"))
                (Binary [137%N]))
      as (Hr & Hf & _); [reflexivity | reflexivity | reflexivity |].
    split; [exact Hr | rewrite Hf; reflexivity].
Defined.

(** X5. [save_transcript] behaves as [save_image] does, in text mode:
    True after an open and a write without fault, the file then holding
    the transcript; False, one printed line and unchanged files after an
    IOError of the open; False and one printed line after an IOError of
    the write, the file holding what the failed write left in it; any
    other exception reaches the caller. Other files are never changed. *)
Theorem save_transcript_outcomes (E : env) (transcript : str) (filepath : str)
        (w : world) :
  let run := save_transcript E transcript filepath w in
  let opened_w := put_file filepath (Text []) (emit (Open filepath W) w) in
  (open_fault E w filepath W = None →
   write_fault E opened_w filepath (Text transcript) = None →
     fst run = Ret true
     ∧ files (snd run) = <[filepath := Text transcript]> (files w)
     ∧ printed (snd run) = printed w)
  ∧ (∀ e, open_fault E w filepath W = Some e →
       issubclass (exn_cls e) OSError = true →
       fst run = Ret false
       ∧ files (snd run) = files w
       ∧ printed (snd run)
         = printed w ++ [lit "Error saving transcript to " ++ filepath
                         ++ lit ": " ++ exn_msg e])
  ∧ (∀ e rest, open_fault E w filepath W = None →
       write_fault E opened_w filepath (Text transcript) = Some (e, rest) →
       issubclass (exn_cls e) OSError = true →
       fst run = Ret false
       ∧ files (snd run) = <[filepath := rest]> (files w)
       ∧ printed (snd run)
         = printed w ++ [lit "Error saving transcript to " ++ filepath
                         ++ lit ": " ++ exn_msg e])
  ∧ (∀ e, open_fault E w filepath W = Some e
          ∨ (open_fault E w filepath W = None
             ∧ ∃ rest, write_fault E opened_w filepath (Text transcript)
                       = Some (e, rest)) →
       issubclass (exn_cls e) OSError = false →
       fst run = Raise e ∧ printed (snd run) = printed w)
  ∧ (∀ p, p ≠ filepath → files (snd run) !! p = files w !! p).
Proof.
  intros run opened_w. subst run opened_w. rewrite save_transcript_eq.
  pose proof (save_step_outcomes E filepath W (Text transcript)
                (lit "Error saving transcript to ") w) as (H1 & H2 & H3 & H4).
  repeat split; try (by apply H1); try (by eapply H2); try (by eapply H3);
    try (by eapply H4).
  intros p Hp. by apply save_step_other_files.
Qed.

(** A transcript that is saved, one that cannot be opened, and one on a
    full disk, which leaves the first character in the file. *)
Lemma save_transcript_outcomes_witness :
  (fst (save_transcript Demo.env_ok (lit "A test.") (lit "a.txt") Demo.w0)
   = Ret true
   ∧ files (snd (save_transcript Demo.env_ok (lit "A test.") (lit "a.txt")
                   Demo.w0))
     = {[ lit "a.txt" := Text (lit "A test.") ]})
  ∧ (fst (save_transcript Demo.env_no_transcript (lit "A test.")
            (lit "a.txt") Demo.w0) = Ret false
     ∧ files (snd (save_transcript Demo.env_no_transcript (lit "A test.")
                     (lit "a.txt") Demo.w0)) = ∅)
  ∧ (fst (save_transcript Demo.env_disk_full (lit "A test.") (lit "a.txt")
            Demo.w0) = Ret false
     ∧ files (snd (save_transcript Demo.env_disk_full (lit "A test.")
                     (lit "a.txt") Demo.w0))
       = {[ lit "a.txt" := Text (lit "A") ]}).
Proof.
  split; [|split].
  - destruct (proj1 (save_transcript_outcomes Demo.env_ok (lit "A test.")
                       (lit "a.txt") Demo.w0)) as (Hr & Hf & _);
      [reflexivity | reflexivity |].
    split; [exact Hr | rewrite Hf; reflexivity].
  - destruct (proj1 (proj2 (save_transcript_outcomes Demo.env_no_transcript
                              (lit "A test.") (lit "a.txt") Demo.w0))
                (Exn OSError (lit "Permission denied")))
      as (Hr & Hf & _); [reflexivity | reflexivity |].
    split; [exact Hr | exact Hf].
  - destruct (proj1 (proj2 (proj2 (save_transcript_outcomes
                                     Demo.env_disk_full (lit "A test.")
                                     (lit "a.txt") Demo.w0)))
                (Exn OSError (lit "No space left on device"))
                (Text (lit "A")))
      as (Hr & Hf & _); [reflexivity | reflexivity | reflexivity |].
    split; [exact Hr | rewrite Hf; reflexivity].
Defined.

End more_steps.

(* ===================================================================== *)
(** * More on the orchestrators and on file names *)
(* ===================================================================== *)

Section more_orchestrators.
Import Py Scraper.

Lemma filter_nil_iff {A} (f : A → bool) (l : list A) :
  List.filter f l = [] ↔ ∀ x, x ∈ l → f x = false.
Proof.
  induction l as [|x l IH]; cbn [List.filter].
  - split; [intros _ y Hy; by apply elem_of_nil in Hy | done].
  - destruct (f x) eqn:Hx.
    + split; [discriminate|]. intros H. specialize (H x ltac:(left)).
      congruence.
    + rewrite IH. split; intros H y.
      * rewrite elem_of_cons. intros [->|Hy]; [done | by apply H].
      * intros Hy. apply H. by right.
Qed.

(** X6. Last write wins: with no fault of the file system, saving twice
    to one path leaves what saving the second payload alone leaves. *)
Theorem save_image_last_write_wins (E : env) (a b : bytes) (filepath : str)
        (w : world) :
  (∀ w p m, open_fault E w p m = None) →
  (∀ w p c, write_fault E w p c = None) →
  let w1 := snd (save_image E a filepath w) in
  fst (save_image E b filepath w1) = Ret true
  ∧ files (snd (save_image E b filepath w1))
    = files (snd (save_image E b filepath w))
  ∧ files (snd (save_image E b filepath w1)) !! filepath = Some (Binary b).
Proof.
  intros Hopen Hwrite w1. subst w1. rewrite !save_image_eq.
  rewrite !save_step_eq. cbn zeta. rewrite !Hopen, !Hwrite. cbn [fst snd].
  world_simpl. rewrite !insert_insert_eq.
  split; [reflexivity|]. split; [reflexivity|]. apply lookup_insert_eq.
Qed.

(** Two comics of one name. *)
Lemma save_image_last_write_wins_witness :
  files (snd (save_image Demo.env_ok [2%N] (lit "a.png")
                (snd (save_image Demo.env_ok [1%N] (lit "a.png") Demo.w0))))
    !! lit "a.png" = Some (Binary [2%N]).
Proof.
  apply (save_image_last_write_wins Demo.env_ok [1%N] [2%N] (lit "a.png")
           Demo.w0); reflexivity.
Defined.

(** X7. No cleanup: when the transcript cannot be saved after the image
    was, [get_comic] returns False and the image file stays, with the bytes
    downloaded. *)
Theorem get_comic_keeps_image (E : env) (comic_index : Z) (w : world) :
  ∀ soup w1 d w2 img w3 w4 w5,
    fetch_webpage E (XKCD_BASE_URL ++ str_of_int comic_index) w
      = (Ret (Some soup), w1) →
    extract_comic_data soup w1 = (Ret (Some d), w2) →
    download_image E (image_url d) w2 = (Ret (Some img), w3) →
    save_image E img (image_path_of d) w3 = (Ret true, w4) →
    save_transcript E (transcript d) (transcript_path_of d) w4
      = (Ret false, w5) →
    fst (get_comic E comic_index w) = Ret false
    ∧ files (snd (get_comic E comic_index w)) !! image_path_of d
      = Some (Binary img).
Proof.
  intros soup w1 d w2 img w3 w4 w5 Hf Hx Hd Hi Ht.
  rewrite get_comic_unfold, Hf, Hx, Hd, Hi, Ht. cbn [fst snd].
  split; [reflexivity|].
  rewrite save_image_eq in Hi. apply save_step_true in Hi as [Fi _].
  rewrite save_transcript_eq in Ht.
  pose proof (save_step_other_files E (transcript_path_of d) W
                (Text (transcript d)) (lit "Error saving transcript to ")
                w4 (image_path_of d) (image_path_not_transcript_path d)) as Ho.
  rewrite Ht in Ho. cbn [snd] in Ho. rewrite Ho, Fi. apply lookup_insert_eq.
Qed.

(** The site is served and the transcript cannot be opened. *)
Lemma get_comic_keeps_image_witness :
  fst (get_comic Demo.env_no_transcript 614 Demo.w0) = Ret false
  ∧ files (snd (get_comic Demo.env_no_transcript 614 Demo.w0))
      !! lit "Test Comic.png" = Some (Binary Demo.png).
Proof.
  apply (get_comic_keeps_image Demo.env_no_transcript 614 Demo.w0
           Demo.page
           (snd (fetch_webpage Demo.env_no_transcript
                   (XKCD_BASE_URL ++ str_of_int 614) Demo.w0))
           (ComicData Demo.image_src (lit "Test Comic") (lit "A test."))
           (snd (fetch_webpage Demo.env_no_transcript
                   (XKCD_BASE_URL ++ str_of_int 614) Demo.w0))
           Demo.png
           (snd (download_image Demo.env_no_transcript Demo.image_src
                   (snd (fetch_webpage Demo.env_no_transcript
                           (XKCD_BASE_URL ++ str_of_int 614) Demo.w0))))
           (snd (save_image Demo.env_no_transcript Demo.png
                   (lit "Test Comic.png")
                   (snd (download_image Demo.env_no_transcript Demo.image_src
                           (snd (fetch_webpage Demo.env_no_transcript
                                   (XKCD_BASE_URL ++ str_of_int 614)
                                   Demo.w0))))))
           (snd (get_comic Demo.env_no_transcript 614 Demo.w0)));
    vm_compute; reflexivity.
Defined.

(** X9. The transcript path is a plain file name: it has no slash and
    exactly one dot, and differs from the image path; the image path has a
    slash exactly when the extension taken from the URL has one. *)
Theorem saved_paths_shape (d : comic_data) :
  (chr "/" ∉ transcript_path_of d)
  ∧ count (chr ".") (transcript_path_of d) = 1%nat
  ∧ image_path_of d ≠ transcript_path_of d
  ∧ (chr "/" ∈ image_path_of d ↔ chr "/" ∈ get_file_extension (image_url d)).
Proof.
  assert (chr "." ∉ sanitize_filename (title d)) as Hdot.
  { apply sanitize_filename_not_in, contains_elem_of. reflexivity. }
  assert (chr "/" ∉ sanitize_filename (title d)) as Hslash.
  { apply sanitize_filename_not_in, contains_elem_of. reflexivity. }
  unfold transcript_path_of, image_path_of.
  split; [|split; [|split]].
  - rewrite elem_of_app. intros [?|Hin]; [done|].
    revert Hin. decide_by_compute.
  - rewrite count_app, (count_not_in _ _ Hdot). reflexivity.
  - apply image_path_not_transcript_path.
  - rewrite !elem_of_app.
    assert (chr "/" ∉ lit ".") as Hsep by decide_by_compute.
    tauto.
Qed.

(** X10. [sanitize_filename] is idempotent, distributes over
    concatenation, never lengthens, and returns the empty string exactly
    for the strings made of denylisted characters only. *)
Theorem sanitize_filename_algebra (a b : str) :
  sanitize_filename (sanitize_filename a) = sanitize_filename a
  ∧ sanitize_filename (a ++ b) = sanitize_filename a ++ sanitize_filename b
  ∧ (length (sanitize_filename a) ≤ length a)%nat
  ∧ (sanitize_filename a = [] ↔ ∀ c, c ∈ a → c ∈ INVALID_FILENAME_CHARS).
Proof.
  split; [|split; [|split]].
  - apply filter_all_true. intros c Hc.
    apply list_elem_of_In, filter_In in Hc as [_ Hc]. exact Hc.
  - apply List.filter_app.
  - apply sublist_length, filter_sublist.
  - unfold sanitize_filename. rewrite filter_nil_iff. split; intros H c Hc.
    + apply contains_elem_of. specialize (H c Hc).
      by apply negb_false_iff in H.
    + apply negb_false_iff, contains_elem_of. by apply H.
Qed.

(** X11. The extension is a suffix of the URL without a dot in it; taking
    the extension again changes nothing; and it is empty exactly for the
    empty URL and for the URLs that end with a dot. *)
Theorem get_file_extension_suffix (url : str) :
  (get_file_extension url `suffix_of` url)
  ∧ (chr "." ∉ get_file_extension url)
  ∧ get_file_extension (get_file_extension url) = get_file_extension url
  ∧ (get_file_extension url = [] ↔ url = [] ∨ last url = Some (chr ".")).
Proof.
  pose proof (get_file_extension_no_dot url) as Hdot.
  assert (get_file_extension (get_file_extension url)
          = get_file_extension url) as Hidem.
  { unfold get_file_extension at 1. by rewrite split_no_sep. }
  destruct (decide (chr "." ∈ url)) as [Hin|Hno].
  - apply list_elem_of_split_r in Hin as (a & b & -> & Hb).
    assert (get_file_extension (a ++ chr "." :: b) = b) as Hext.
    { unfold get_file_extension. by rewrite split_last_after_sep. }
    rewrite Hext in *.
    split; [by exists (a ++ [chr "."]); rewrite <-app_assoc|].
    split; [exact Hb|]. split; [exact Hidem|].
    split.
    + intros ->. right. by rewrite last_snoc.
    + intros [Hnil|Hlast]; [by destruct a|].
      destruct b as [|x b] using rev_ind; [done|].
      rewrite app_comm_cons, app_assoc, last_snoc in Hlast.
      injection Hlast as ->. destruct Hb. rewrite elem_of_app. right. left.
  - assert (get_file_extension url = url) as Hext.
    { unfold get_file_extension. by rewrite split_no_sep. }
    rewrite Hext in *.
    split; [done|]. split; [exact Hno|]. split; [exact Hidem|].
    split; [by left|]. intros [?|Hlast]; [done|].
    destruct Hno. by apply last_Some_elem_of.
Qed.

End more_orchestrators.

(* ===================================================================== *)
(** * More on the README updater *)
(* ===================================================================== *)

Section more_update_readme.
Import Py UpdateReadme.

Lemma replace_not_in (old : char) (new s : str) :
  old ∉ new → old ∉ replace old new s.
Proof.
  intros Hnew. unfold replace. induction s as [|c s IH]; simpl.
  - by intros H%elem_of_nil.
  - rewrite elem_of_app. intros [Hin|Hin]; [|by apply IH].
    destruct (N.eqb c old) eqn:Hc; [by apply Hnew|].
    apply N.eqb_neq in Hc. apply list_elem_of_singleton in Hin. congruence.
Qed.

Lemma filter_Permutation_bool {A} (f : A → bool) (l l' : list A) :
  l ≡ₚ l' → List.filter f l ≡ₚ List.filter f l'.
Proof.
  induction 1 as [|x l l' _ IH|x y l|l l' l'' _ IH1 _ IH2]; simpl.
  - reflexivity.
  - destruct (f x); by rewrite IH.
  - destruct (f x), (f y); try reflexivity. apply perm_swap.
  - by rewrite IH1.
Qed.

Lemma get_most_recent_comic_files (E : env) (w : world) :
  files (snd (get_most_recent_comic E w)) = files w.
Proof.
  rewrite get_most_recent_comic_eq.
  destruct (negb _); [reflexivity|].
  destruct (listdir E _) as [names|e]; [|reflexivity].
  destruct (date_dirs E names); [reflexivity|]. cbn zeta.
  destruct (glob E _); reflexivity.
Qed.

(** X12. [get_most_recent_comic] only reads: whatever it returns, no file
    is changed and nothing is opened, written or requested. A tuple is
    returned with nothing printed, and None after exactly one printed
    line. *)
Theorem get_most_recent_comic_read_only (E : env) (w : world) :
  let run := get_most_recent_comic E w in
  files (snd run) = files w
  ∧ actions (snd run) = actions w
  ∧ (∀ r, fst run = Ret (Some r) → snd run = w)
  ∧ (fst run = Ret None → ∃ line, snd run = emit (Print line) w).
Proof.
  intros run. subst run. rewrite get_most_recent_comic_eq.
  assert (∀ line,
            files (emit (Print line) w) = files w
            ∧ actions (emit (Print line) w) = actions w) as Hprint
    by (intros line; by world_simpl).
  destruct (negb _).
  { cbn [fst snd]. destruct (Hprint (lit "Data directory not found: "
                                      ++ data_dir E)).
    repeat split; try done; try discriminate; by eauto. }
  destruct (listdir E _) as [names|e];
    [|repeat split; discriminate].
  destruct (date_dirs E names) as [|d rest].
  { cbn [fst snd].
    destruct (Hprint (lit "No date directories found in data folder")).
    repeat split; try done; try discriminate; by eauto. }
  cbn zeta. destruct (glob E _); cbn [fst snd].
  - destruct (Hprint (lit "No PNG files found in "
                      ++ path_join (data_dir E) d)).
    repeat split; try done; try discriminate; by eauto.
  - repeat split. discriminate.
Qed.

(** X13. The tuple [get_most_recent_comic] returns: the date is a
    subdirectory of the data directory, the title is the stem of the first
    match of [*.png] in that subdirectory, and the image path is the
    relative path of that match with every space replaced by [%20], so
    that it has no space. *)
Theorem get_most_recent_comic_result (E : env) (w w' : world)
        (date title path : str) :
  get_most_recent_comic E w = (Ret (Some (date, title, path)), w') →
  ∃ names image_path rest,
    path_exists E (data_dir E) = true
    ∧ listdir E (data_dir E) = Ret names
    ∧ date ∈ subdirs E names
    ∧ glob E (path_join (path_join (data_dir E) date) (lit "*.png"))
      = image_path :: rest
    ∧ title = path_stem image_path
    ∧ path = replace (chr " ") (lit "%20")
               (relpath E image_path (project_root E))
    ∧ chr " " ∉ path.
Proof.
  rewrite get_most_recent_comic_eq.
  destruct (path_exists E (data_dir E)); [|discriminate]. cbn [negb].
  destruct (listdir E _) as [names|e]; [|discriminate].
  destruct (date_dirs E names) as [|d rest] eqn:Hd; [discriminate|].
  cbn zeta.
  destruct (glob E _) as [|image_path more] eqn:Hg; [discriminate|].
  intros [= <- <- <- <-]. exists names, image_path, more.
  apply sorted_descending_head in Hd as [Hin _].
  repeat split; try done.
  apply replace_not_in. decide_by_compute.
Qed.

(** The data directory of the example, with one image. *)
Lemma get_most_recent_comic_result_witness :
  get_most_recent_comic Demo.env_readme Demo.w0
    = (Ret (Some (lit "2024-01-20", lit "Test Comic",
                  lit "/repo/data/2024-01-20/Test%20Comic.png")), Demo.w0)
  ∧ chr " " ∉ lit "/repo/data/2024-01-20/Test%20Comic.png".
Proof.
  assert (get_most_recent_comic Demo.env_readme Demo.w0
          = (Ret (Some (lit "2024-01-20", lit "Test Comic",
                        lit "/repo/data/2024-01-20/Test%20Comic.png")),
             Demo.w0)) as Hrun by (vm_compute; reflexivity).
  split; [exact Hrun|].
  destruct (get_most_recent_comic_result _ _ _ _ _ _ Hrun)
    as (names & image_path & rest & _ & _ & _ & _ & _ & _ & Hspace).
  exact Hspace.
Defined.

(** X14. The date directories, and with them the most recent date, do not
    depend on the order in which [os.listdir] gives the names. *)
Theorem date_dirs_any_order (E : env) (names names' : list str) :
  names ≡ₚ names' → date_dirs E names = date_dirs E names'.
Proof.
  intros Hperm. unfold date_dirs.
  assert (AntiSymm (=) (flip str_le)) as Hanti
    by (intros a b Hab Hba; by apply str_le_antisym).
  apply (StronglySorted_unique (flip str_le)).
  - apply sorted_descending_sorted.
  - apply sorted_descending_sorted.
  - rewrite !sorted_descending_perm. unfold subdirs.
    by apply filter_Permutation_bool.
Qed.

(** Two listings of the three dates. *)
Lemma date_dirs_any_order_witness :
  date_dirs Demo.env_readme
    [lit "2023-12-31"; lit "2024-01-05"; lit "2024-01-20"]
  = date_dirs Demo.env_readme
      [lit "2024-01-05"; lit "2024-01-20"; lit "2023-12-31"].
Proof.
  apply date_dirs_any_order.
  apply (bool_decide_unpack _). vm_compute. exact I.
Defined.

(** The body of [update_readme], by the outcome of the search. *)
Lemma update_readme_unfold (E : env) (w : world) :
  update_readme E w =
  match get_most_recent_comic E w with
  | (Raise e, w1) => (Raise e, w1)
  | (Ret None, w1) =>
      (Ret tt, emit (Print (lit "No comic found to update README")) w1)
  | (Ret (Some (date, title, image_path)), w1) =>
      match IO.with_open_write E
              (path_join (project_root E) (lit "README.md")) W
              (Text (readme_content date title image_path)) w1 with
      | (Raise e, w2) => (Raise e, w2)
      | (Ret _, w2) =>
          (Ret tt,
           emit (Print (lit "README updated successfully with comic: "
                        ++ title)) w2)
      end
  end.
Proof.
  unfold update_readme, bind.
  destruct (get_most_recent_comic E w) as [[[[[date title] path]|]|e] w1];
    reflexivity.
Qed.

Lemma with_open_write_eq (E : env) path m c w :
  IO.with_open_write E path m c w =
  match open_fault E w path m with
  | Some e => (Raise e, emit (Open path m) w)
  | None =>
      let w1 := put_file path (empty_file m) (emit (Open path m) w) in
      match write_fault E w1 path c with
      | Some (e, rest) =>
          (Raise e, put_file path rest (emit (Write path c) w1))
      | None => (Ret tt, put_file path c (emit (Write path c) w1))
      end
  end.
Proof.
  unfold IO.with_open_write, bind, IO.open_w, IO.handle_write.
  destruct (open_fault E w path m); [reflexivity|]. cbn zeta.
  destruct (write_fault E _ path c) as [[e rest]|]; reflexivity.
Qed.

(** X15. When a comic is found and the file system raises nothing,
    [update_readme] overwrites README.md, at the project root, with the
    block made of the date, the title and the image path; that is the one
    file it opens, and it prints its line of success. *)
Theorem update_readme_writes_readme (E : env) (w : world)
        (date title path : str) :
  let readme := path_join (project_root E) (lit "README.md") in
  let content := Text (readme_content date title path) in
  get_most_recent_comic E w = (Ret (Some (date, title, path)), w) →
  open_fault E w readme W = None →
  write_fault E (put_file readme (Text []) (emit (Open readme W) w))
              readme content = None →
  ∃ w', update_readme E w = (Ret tt, w')
        ∧ files w' = <[readme := content]> (files w)
        ∧ actions w' = actions w ++ [Open readme W; Write readme content]
        ∧ printed w'
          = printed w ++ [lit "README updated successfully with comic: "
                          ++ title].
Proof.
  intros readme content Hfound Hopen Hwrite.
  rewrite update_readme_unfold, Hfound, with_open_write_eq.
  fold readme content. rewrite Hopen. cbn zeta. cbn [empty_file].
  rewrite Hwrite. eexists. split; [reflexivity|]. world_simpl.
  by rewrite insert_insert_eq.
Qed.

(** The README of the example. *)
Lemma update_readme_writes_readme_witness :
  ∃ w', update_readme Demo.env_readme Demo.w0 = (Ret tt, w')
        ∧ files w'
          = {[ lit "/repo/README.md" :=
                 Text (readme_content (lit "2024-01-20") (lit "Test Comic")
                         (lit "/repo/data/2024-01-20/Test%20Comic.png")) ]}.
Proof.
  destruct (update_readme_writes_readme Demo.env_readme Demo.w0
              (lit "2024-01-20") (lit "Test Comic")
              (lit "/repo/data/2024-01-20/Test%20Comic.png"))
    as (w' & Hrun & Hfiles & _);
    [vm_compute; reflexivity | reflexivity | reflexivity |].
  exists w'. split; [exact Hrun|]. rewrite Hfiles. reflexivity.
Defined.

(** The search answers the same in every world. *)
Lemma get_most_recent_comic_fst (E : env) (w w' : world) :
  fst (get_most_recent_comic E w) = fst (get_most_recent_comic E w').
Proof.
  rewrite !get_most_recent_comic_eq.
  destruct (negb _); [reflexivity|].
  destruct (listdir E _) as [names|e]; [|reflexivity].
  destruct (date_dirs E names); [reflexivity|]. cbn zeta.
  destruct (glob E _); reflexivity.
Qed.

(** X16. [update_readme] is idempotent on the files: with a file system
    that raises nothing, a second run returns as the first did and leaves
    the files as the first run left them. *)
Theorem update_readme_idempotent (E : env) (w : world) :
  (∀ w p m, open_fault E w p m = None) →
  (∀ w p c, write_fault E w p c = None) →
  let w1 := snd (update_readme E w) in
  fst (update_readme E w1) = fst (update_readme E w)
  ∧ files (snd (update_readme E w1)) = files w1.
Proof.
  intros Hopen Hwrite w1. subst w1.
  pose proof (get_most_recent_comic_files E) as Hro.
  set (w1 := snd (update_readme E w)).
  pose proof (get_most_recent_comic_fst E w1 w) as Hsame.
  pose proof (Hro w1) as Hro1. pose proof (Hro w) as Hro0.
  rewrite (update_readme_unfold E w1).
  subst w1. rewrite (update_readme_unfold E w) in *.
  destruct (get_most_recent_comic E w) as [r0 v0].
  destruct (get_most_recent_comic E _) as [r1 v1] in Hsame, Hro1 |- *.
  cbn [fst snd] in *. subst r1.
  destruct r0 as [[[[date title] path]|]|e]; cbn [fst snd] in *.
  - rewrite !with_open_write_eq, !Hopen in *. cbn zeta in *.
    rewrite !Hwrite in *. cbn [fst snd] in *. world_simpl.
    split; [reflexivity|]. revert Hro1. world_simpl. intros ->.
    by rewrite !insert_insert_eq.
  - split; [reflexivity|]. revert Hro1. by world_simpl.
  - split; [reflexivity|]. exact Hro1.
Qed.

(** Two runs on the example. *)
Lemma update_readme_idempotent_witness :
  files (snd (update_readme Demo.env_readme
                (snd (update_readme Demo.env_readme Demo.w0))))
  = files (snd (update_readme Demo.env_readme Demo.w0)).
Proof.
  apply (update_readme_idempotent Demo.env_readme Demo.w0); reflexivity.
Defined.

(** X17. [update_readme] has no handler: an exception of [os.listdir]
    reaches the caller with nothing printed or opened, and so does an
    exception of the open of README.md, an IOError included, with the
    files left as they were. *)
Theorem update_readme_propagates (E : env) (w : world) :
  let readme := path_join (project_root E) (lit "README.md") in
  (∀ e, path_exists E (data_dir E) = true →
        listdir E (data_dir E) = Raise e →
        update_readme E w = (Raise e, w))
  ∧ (∀ date title path e,
       get_most_recent_comic E w = (Ret (Some (date, title, path)), w) →
       open_fault E w readme W = Some e →
       update_readme E w = (Raise e, emit (Open readme W) w)
       ∧ files (snd (update_readme E w)) = files w).
Proof.
  intros readme. split.
  - intros e Hex Hls.
    rewrite update_readme_unfold, get_most_recent_comic_eq, Hex, Hls.
    reflexivity.
  - intros date title path e Hfound Hopen.
    rewrite update_readme_unfold, Hfound, with_open_write_eq.
    fold readme. rewrite Hopen. split; reflexivity.
Qed.

(** The example on a read-only project root. *)
Lemma update_readme_propagates_witness :
  fst (update_readme Demo.env_readme_read_only Demo.w0)
    = Raise (Exn OSError (lit "Permission denied"))
  ∧ files (snd (update_readme Demo.env_readme_read_only Demo.w0)) = ∅.
Proof.
  destruct (proj2 (update_readme_propagates Demo.env_readme_read_only Demo.w0)
              (lit "2024-01-20") (lit "Test Comic")
              (lit "/repo/data/2024-01-20/Test%20Comic.png")
              (Exn OSError (lit "Permission denied")))
    as [Hrun Hfiles]; [vm_compute; reflexivity | reflexivity |].
  split; [by rewrite Hrun | exact Hfiles].
Defined.

End more_update_readme.

(* ===================================================================== *)
(** * More on the display script and on the daily run *)
(* ===================================================================== *)

Section more_what_xkcd.
Import Py WhatXkcd.

(** X18. [choose_random_comic]: an exception of the listing of [comics]
    reaches the caller; an empty listing raises a ValueError, with nothing
    printed or opened; and for a listing that is not empty, with an index
    drawn within its bounds, the name at that index is printed and its
    path under [root/comics] is handed to [Image.open]: the path is
    returned when the image opens, and the exception of [Image.open]
    reaches the caller when it does not. *)
Theorem choose_random_comic_outcomes (E : env) (w : world) :
  (∀ e, listdir E (lit "comics") = Raise e →
        choose_random_comic E w = (Raise e, w))
  ∧ (listdir E (lit "comics") = Ret [] →
     ∃ msg, choose_random_comic E w = (Raise (Exn ValueError msg), w))
  ∧ (∀ comics, listdir E (lit "comics") = Ret comics → comics ≠ [] →
       0 <= randint E 0 (Z.of_nat (length comics) - 1)
         <= Z.of_nat (length comics) - 1 →
       ∃ comic,
         comic ∈ comics
         ∧ comics !! Z.to_nat (randint E 0 (Z.of_nat (length comics) - 1))
           = Some comic
         ∧ let path :=
             path_join (path_join (script_root E) (lit "comics")) comic in
           let announced := emit (Print (lit "chose comic: " ++ comic)) w in
           choose_random_comic E w =
           (match device_fault E announced (ImageOpen path) with
            | Some e => Raise e
            | None => Ret path
            end,
            emit (Device (ImageOpen path)) announced)).
Proof.
  unfold choose_random_comic, bind, IO.os_listdir. split; [|split].
  - by intros e ->.
  - intros ->. rewrite bool_decide_eq_true_2 by done. eauto.
  - intros comics -> Hne Hidx. rewrite bool_decide_eq_false_2 by done.
    destruct (comics !! Z.to_nat _) as [comic|] eqn:Hlook.
    + exists comic. split; [by eapply list_elem_of_lookup_2|].
      split; [reflexivity|]. cbn zeta. unfold print, IO.device_call, ret.
      by destruct (device_fault E _ _).
    + apply lookup_ge_None in Hlook. lia.
Qed.

(** The directory of two comics, with the index 0 drawn: the first name
    is chosen; and the same directory when the file is no image. *)
Lemma choose_random_comic_outcomes_witness :
  fst (choose_random_comic Demo.env_comics Demo.w0)
    = Ret (lit "/repo/src/comics/a.png")
  ∧ fst (choose_random_comic Demo.env_no_image Demo.w0)
    = Raise (Exn OSError (lit "cannot identify image file")).
Proof.
  split.
  - destruct (proj2 (proj2 (choose_random_comic_outcomes Demo.env_comics
                              Demo.w0))
                [lit "a.png"; lit "b.png"])
      as (comic & _ & Hlook & Hrun);
      [reflexivity | discriminate | simpl; lia |].
    vm_compute in Hlook. injection Hlook as <-.
    cbn zeta in Hrun. rewrite Hrun. reflexivity.
  - destruct (proj2 (proj2 (choose_random_comic_outcomes Demo.env_no_image
                              Demo.w0))
                [lit "a.png"; lit "b.png"])
      as (comic & _ & Hlook & Hrun);
      [reflexivity | discriminate | simpl; lia |].
    vm_compute in Hlook. injection Hlook as <-.
    cbn zeta in Hrun. rewrite Hrun. reflexivity.
Defined.



End more_what_xkcd.

Section more_daily.
Import Py Scraper.

(** X20. The daily run: the directory of the day is the subdirectory,
    named by the date, of the data directory the README updater lists; when
    it cannot be made or entered, the exception reaches the caller and
    nothing is requested or printed; otherwise [main] announces the
    directory, runs [get_current_comic], and ends with the line of success
    when that returned True and with the line of failure when it returned
    False, returning normally in both cases. *)
Theorem main_outcomes (E : env) (D : daily_env) (w : world) :
  let data_dir := path_join (UpdateReadme.data_dir E) (today D) in
  let announced := emit (Print (lit "Saving comic to: " ++ data_dir)) w in
  (∀ e, makedirs_fault D data_dir = Some e → main E D w = (Raise e, w))
  ∧ (∀ e, makedirs_fault D data_dir = None →
          chdir_fault D data_dir = Some e → main E D w = (Raise e, w))
  ∧ (makedirs_fault D data_dir = None → chdir_fault D data_dir = None →
     (∀ w1, get_current_comic E announced = (Ret true, w1) →
        main E D w =
        (Ret tt,
         emit (Print (lit "Comic download completed successfully!")) w1))
     ∧ (∀ w1, get_current_comic E announced = (Ret false, w1) →
          main E D w =
          (Ret tt, emit (Print (lit "Failed to download comic.")) w1))
     ∧ (∀ e w1, get_current_comic E announced = (Raise e, w1) →
          main E D w = (Raise e, w1))).
Proof.
  intros data_dir announced. subst data_dir announced.
  unfold UpdateReadme.data_dir.
  unfold main, setup_daily_directory, bind, os_makedirs, os_chdir, print, ret.
  split; [|split].
  - by intros e ->.
  - intros e -> Hc. cbn beta iota. by rewrite Hc.
  - intros -> Hc. cbn beta iota. rewrite Hc. cbn beta iota.
    repeat split; intros; by rewrite H.
Qed.

(** A day on which the directory cannot be made, and an ordinary day. *)
Lemma main_outcomes_witness :
  main Demo.env_ok Demo.day_no_directory Demo.w0
    = (Raise (Exn OSError (lit "Permission denied")), Demo.w0)
  ∧ fst (main Demo.env_ok Demo.day_ok Demo.w0) = Ret tt
  ∧ last (printed (snd (main Demo.env_ok Demo.day_ok Demo.w0)))
    = Some (lit "Comic download completed successfully!").
Proof.
  destruct (main_outcomes Demo.env_ok Demo.day_no_directory Demo.w0)
    as (Hmk & _).
  destruct (main_outcomes Demo.env_ok Demo.day_ok Demo.w0)
    as (_ & _ & Hrun).
  split; [apply Hmk; reflexivity|].
  destruct (Hrun eq_refl eq_refl) as (Htrue & _).
  rewrite (Htrue (snd (get_current_comic Demo.env_ok
                         (emit (Print (lit "Saving comic to: "
                                       ++ lit "/repo/data/2024-01-20"))
                               Demo.w0))))
    by (vm_compute; reflexivity).
  split; [reflexivity|]. vm_compute. reflexivity.
Defined.

(** X21. The daily run writes at most the image. In every run no file is
    opened or written in text mode. Either the run does no more than the
    request of the page and changes no file, or the page gave the record
    [d] and the run does the two requests and then at most opens and
    writes the image file of [d], in binary mode: every other file, the
    transcript file of [d] among them, is as it was. *)
Theorem main_image_only (E : env) (D : daily_env) (w : world) :
  let data_dir := path_join (UpdateReadme.data_dir E) (today D) in
  let announced := emit (Print (lit "Saving comic to: " ++ data_dir)) w in
  let run := main E D w in
  (∃ acts, actions (snd run) = actions w ++ acts ∧ Forall binary_only acts)
  ∧ (((actions (snd run) = actions w
       ∨ actions (snd run) = actions w ++ [Get XKCD_BASE_URL])
      ∧ files (snd run) = files w)
     ∨ ∃ soup w1 d w2 tl,
         fetch_webpage E XKCD_BASE_URL announced = (Ret (Some soup), w1)
         ∧ extract_comic_data soup w1 = (Ret (Some d), w2)
         ∧ actions (snd run) =
             actions w ++
             Get XKCD_BASE_URL :: Get (normalize_url (image_url d)) :: tl
         ∧ (tl = []
            ∨ tl = [Open (image_path_of d) WB]
            ∨ ∃ img, tl = [Open (image_path_of d) WB;
                           Write (image_path_of d) (Binary img)])
         ∧ (∀ p, p ≠ image_path_of d → files (snd run) !! p = files w !! p)
         ∧ files (snd run) !! transcript_path_of d
           = files w !! transcript_path_of d).
Proof.
  intros data_dir announced run.
  assert (((actions (snd run) = actions w
            ∨ actions (snd run) = actions w ++ [Get XKCD_BASE_URL])
           ∧ files (snd run) = files w)
          ∨ ∃ soup w1 d w2 tl,
              fetch_webpage E XKCD_BASE_URL announced = (Ret (Some soup), w1)
              ∧ extract_comic_data soup w1 = (Ret (Some d), w2)
              ∧ actions (snd run) =
                  actions w ++
                  Get XKCD_BASE_URL :: Get (normalize_url (image_url d)) :: tl
              ∧ (tl = []
                 ∨ tl = [Open (image_path_of d) WB]
                 ∨ ∃ img, tl = [Open (image_path_of d) WB;
                                Write (image_path_of d) (Binary img)])
              ∧ (∀ p, p ≠ image_path_of d
                      → files (snd run) !! p = files w !! p)) as Hcases.
  { subst run announced data_dir. unfold UpdateReadme.data_dir.
    unfold main, setup_daily_directory, bind, os_makedirs, os_chdir, print,
      ret.
    set (data_dir := path_join (path_join (project_root E) (lit "data"))
                               (today D)).
    destruct (makedirs_fault D data_dir); [left; split; eauto|].
    cbn beta iota.
    destruct (chdir_fault D data_dir); [left; split; eauto|].
    cbn beta iota.
    set (announced := emit (Print (lit "Saving comic to: " ++ data_dir)) w).
    pose proof (get_current_comic_effects E announced) as Heff.
    cbn zeta in Heff.
    assert (actions announced = actions w) as Ha0
      by (subst announced; by world_simpl).
    assert (files announced = files w) as Hf0 by reflexivity.
    rewrite Ha0, Hf0 in Heff.
    destruct (get_current_comic E announced) as [[[|]|e] w1];
      cbn [snd] in *; rewrite ?actions_emit, ?files_emit; cbn [is_action];
      rewrite ?app_nil_r;
      (destruct Heff as [(_ & Ha & Hfiles)
                        |(soup & w1' & d & w2 & tl & Hf & Hx & Ha & Htl & Ho)];
       [left; split; eauto
       |right; exists soup, w1', d, w2, tl; repeat split; try assumption;
        destruct Htl as [[-> _]|(img & w3 & _ & [->| ->])]; eauto]). }
  split.
  - destruct Hcases as [[[Ha|Ha] _]
                       |(soup & w1 & d & w2 & tl & _ & _ & Ha & Htl & _)].
    + exists []. rewrite app_nil_r. split; [exact Ha | apply Forall_nil_2].
    + exists [Get XKCD_BASE_URL]. split; [exact Ha|].
      apply Forall_cons_2; [exact I | apply Forall_nil_2].
    + eexists. split; [exact Ha|]. by apply binary_only_image_actions.
  - destruct Hcases as [Hnone
                       |(soup & w1 & d & w2 & tl & Hf & Hx & Ha & Htl & Ho)];
      [by left|].
    right. exists soup, w1, d, w2, tl. repeat split; try assumption.
    apply Ho. intros Heq. symmetry in Heq.
    by apply image_path_not_transcript_path in Heq.
Qed.

End more_daily.

(* ===================================================================== *)
(** * Runs that succeed, and the URL of a comic *)
(* ===================================================================== *)

Section success.
Import Py Scraper.

(** X22. [get_comic] succeeds when everything it asks for is there: the
    page is answered with a status outside 400..599 and holds the three
    elements, the image is answered likewise, and the file system raises
    nothing. It then returns True, the image file holds the bytes of the
    image response and the transcript file the transcript, no other file
    is changed, and the last line printed names the index and the title. *)
Theorem get_comic_succeeds (E : env) (comic_index : Z) (w : world)
        (page image : response) (d : comic_data) :
  let url := XKCD_BASE_URL ++ str_of_int comic_index in
  net E w url = Ret page →
  ¬ (400 <= status_code page < 600) →
  has_comic (html_parser E (text page)) d →
  net E (emit (Get url) w) (normalize_url (image_url d)) = Ret image →
  ¬ (400 <= status_code image < 600) →
  (∀ w p m, open_fault E w p m = None) →
  (∀ w p c, write_fault E w p c = None) →
  fst (get_comic E comic_index w) = Ret true
  ∧ files (snd (get_comic E comic_index w))
    = <[transcript_path_of d := Text (transcript d)]>
        (<[image_path_of d := Binary (content_of image)]> (files w))
  ∧ last (printed (snd (get_comic E comic_index w)))
    = Some (lit "Successfully downloaded comic " ++ str_of_int comic_index
            ++ lit ": " ++ title d).
Proof.
  intros url Hpage Hstatus Hcomic Himage Hstatus' Hopen Hwrite.
  apply http_error_msg_None in Hstatus, Hstatus'.
  rewrite get_comic_unfold. fold url.
  rewrite fetch_webpage_eq, http_step_eq, Hpage, Hstatus.
  rewrite (extract_comic_data_has_comic _ d _ Hcomic).
  rewrite download_image_eq, http_step_eq, Himage, Hstatus'.
  rewrite save_image_eq, save_step_eq, Hopen. cbn zeta. rewrite Hwrite.
  rewrite save_transcript_eq, save_step_eq, Hopen. cbn zeta. rewrite Hwrite.
  cbn [fst snd]. split; [reflexivity|]. world_simpl.
  rewrite !insert_insert_eq. split; [reflexivity|]. apply last_snoc.
Qed.

(** The comic of the served site. *)
Lemma get_comic_succeeds_witness :
  fst (get_comic Demo.env_ok 614 Demo.w0) = Ret true
  ∧ files (snd (get_comic Demo.env_ok 614 Demo.w0))
    = {[ lit "Test Comic.png" := Binary Demo.png;
         lit "Test Comic_transcript.txt" := Text (lit "A test.") ]}.
Proof.
  destruct (get_comic_succeeds Demo.env_ok 614 Demo.w0
              (Demo.served (lit "https://xkcd.com/614") (lit "comic"))
              (Demo.served (lit "https://imgs.xkcd.com/comics/test.png")
                           (lit "comic"))
              (ComicData Demo.image_src (lit "Test Comic") (lit "A test.")))
    as (Hrun & Hfiles & _).
  - reflexivity.
  - simpl. lia.
  - eexists _, _, _, _, _, _. vm_compute. repeat split; reflexivity.
  - reflexivity.
  - simpl. lia.
  - reflexivity.
  - reflexivity.
  - split; [exact Hrun|]. rewrite Hfiles. vm_compute. reflexivity.
Defined.

(** X23. [get_current_comic] succeeds under the same conditions, on the
    site root: it returns True, the image file holds the bytes of the
    image response, and no other file is changed. *)
Theorem get_current_comic_succeeds (E : env) (w : world)
        (page image : response) (d : comic_data) :
  net E w XKCD_BASE_URL = Ret page →
  ¬ (400 <= status_code page < 600) →
  has_comic (html_parser E (text page)) d →
  net E (emit (Get XKCD_BASE_URL) w) (normalize_url (image_url d))
    = Ret image →
  ¬ (400 <= status_code image < 600) →
  (∀ w p m, open_fault E w p m = None) →
  (∀ w p c, write_fault E w p c = None) →
  fst (get_current_comic E w) = Ret true
  ∧ files (snd (get_current_comic E w))
    = <[image_path_of d := Binary (content_of image)]> (files w)
  ∧ last (printed (snd (get_current_comic E w)))
    = Some (lit "Successfully downloaded current comic: " ++ title d).
Proof.
  intros Hpage Hstatus Hcomic Himage Hstatus' Hopen Hwrite.
  apply http_error_msg_None in Hstatus, Hstatus'.
  rewrite get_current_comic_unfold.
  rewrite fetch_webpage_eq, http_step_eq, Hpage, Hstatus.
  rewrite (extract_comic_data_has_comic _ d _ Hcomic).
  rewrite download_image_eq, http_step_eq, Himage, Hstatus'.
  rewrite save_image_eq, save_step_eq, Hopen. cbn zeta. rewrite Hwrite.
  cbn [fst snd]. split; [reflexivity|]. world_simpl.
  rewrite !insert_insert_eq. split; [reflexivity|]. apply last_snoc.
Qed.

(** The current comic of the served site. *)
Lemma get_current_comic_succeeds_witness :
  fst (get_current_comic Demo.env_ok Demo.w0) = Ret true
  ∧ files (snd (get_current_comic Demo.env_ok Demo.w0))
    = {[ lit "Test Comic.png" := Binary Demo.png ]}.
Proof.
  destruct (get_current_comic_succeeds Demo.env_ok Demo.w0
              (Demo.served (lit "https://xkcd.com/") (lit "comic"))
              (Demo.served (lit "https://imgs.xkcd.com/comics/test.png")
                           (lit "comic"))
              (ComicData Demo.image_src (lit "Test Comic") (lit "A test.")))
    as (Hrun & Hfiles & _).
  - reflexivity.
  - simpl. lia.
  - eexists _, _, _, _, _, _. vm_compute. repeat split; reflexivity.
  - reflexivity.
  - simpl. lia.
  - reflexivity.
  - reflexivity.
  - split; [exact Hrun|]. rewrite Hfiles. vm_compute. reflexivity.
Defined.

Lemma lit_inj (s t : string) : lit s = lit t → s = t.
Proof.
  unfold lit. intros H.
  rewrite <-(string_of_list_ascii_of_string s),
          <-(string_of_list_ascii_of_string t).
  f_equal. revert H.
  generalize (list_ascii_of_string s) (list_ascii_of_string t).
  intros l. induction l as [|a l IH]; intros [|b k]; simpl; try done.
  intros [= Hab Hlk]. f_equal; [|by apply IH].
  rewrite <-(ascii_N_embedding a), <-(ascii_N_embedding b). by rewrite Hab.
Qed.

(** X24. The first thing [get_comic] does, whatever follows, is to
    request the base URL followed by the index in decimal; and two
    indices that differ give two URLs that differ. *)
Theorem get_comic_page_url (E : env) (comic_index : Z) (w : world) :
  (∃ rest,
     actions (snd (get_comic E comic_index w))
     = actions w ++ Get (XKCD_BASE_URL ++ str_of_int comic_index) :: rest)
  ∧ (∀ other, XKCD_BASE_URL ++ str_of_int comic_index
              = XKCD_BASE_URL ++ str_of_int other →
              comic_index = other).
Proof.
  split.
  - rewrite get_comic_unfold.
    destruct (fetch_webpage E _ w) as [r1 w1] eqn:Hf.
    apply fetch_webpage_frame in Hf as [_ Af].
    destruct r1 as [[soup|]|e];
      [|eexists; exact Af|eexists; exact Af].
    destruct (extract_comic_data soup w1) as [r2 w2] eqn:Hx.
    apply extract_comic_data_frame in Hx as [_ Ax]. rewrite Af in Ax.
    destruct r2 as [[d|]|e];
      [|eexists; exact Ax|eexists; exact Ax].
    destruct (download_image E _ w2) as [r3 w3] eqn:Hd.
    apply download_image_frame in Hd as [_ Ad].
    rewrite Ax, <-app_assoc in Ad.
    destruct r3 as [[img|]|e];
      [|eexists; exact Ad|eexists; exact Ad].
    rewrite save_image_eq.
    destruct (save_step_actions E (image_path_of d) WB (Binary img)
                (lit "Error saving image to ") w3) as (tl & As & _).
    rewrite Ad, <-app_assoc in As.
    destruct (save_step E _ _ _ _ w3) as [[[|]|e] w4]; cbn [snd] in As;
      [|eexists; exact As|eexists; exact As].
    rewrite save_transcript_eq.
    destruct (save_step_actions E (transcript_path_of d) W
                (Text (transcript d)) (lit "Error saving transcript to ") w4)
      as (tl' & At & _).
    rewrite As, <-app_assoc in At.
    destruct (save_step E _ _ _ _ w4) as [[[|]|e] w5]; cbn [snd] in *;
      eexists; [world_simpl| |]; exact At.
  - intros other H. apply app_inv_head in H. unfold str_of_int in H.
    apply lit_inj in H. by apply (inj pretty).
Qed.

End success.
